(** * ghas-to-csv: the report script [main.py]

    A shallow embedding of [src/main.py]: the resolution of the
    [FEATURES] variable, the admin lookup, the CSV writer
    [write_csv_with_admins] and the orchestrator that runs under
    [if __name__ == "__main__"], followed by the properties of the
    specification that concern them.

    Conventions of the model.
    - Python [str] is [string]; [str.lower] acts on the ASCII letters and
      leaves every other character alone.
    - A [dict] whose order is observable (an alert record: its keys become
      the CSV header) is an association list in insertion order; the admin
      map, which is only looked up, is a [gmap].
    - The modules [secret_scanning], [code_scanning], [dependabot],
      [enterprise] and [requests] are not part of the file; they are the
      fields of the record [api], and every statement quantifies over it.
    - Effects (files, standard output, the calls made to [api], raised
      exceptions) are threaded through the monad [M]. *)

From Stdlib Require Import String Ascii List ZArith Lia Bool.
From stdpp Require Import base option list gmap strings.
Import ListNotations.
Local Open Scope string_scope.

(** ** Python strings *)

Module PyStr.

(** [c.lower()] for one character. *)
Definition lower_ascii (c : ascii) : ascii :=
  let n := nat_of_ascii c in
  if (65 <=? n)%nat && (n <=? 90)%nat then ascii_of_nat (n + 32) else c.

(** [s.lower()] *)
Fixpoint lower (s : string) : string :=
  match s with
  | EmptyString => EmptyString
  | String c s' => String (lower_ascii c) (lower s')
  end.

(** [s.startswith(p)] *)
Fixpoint startswith (s p : string) : bool :=
  match p, s with
  | EmptyString, _ => true
  | String _ _, EmptyString => false
  | String a p', String b s' => if Ascii.eqb a b then startswith s' p' else false
  end.

(** [x in s] for two strings: [x] occurs in [s] as a substring. *)
Fixpoint contains (x s : string) : bool :=
  startswith s x ||
  match s with
  | EmptyString => false
  | String _ s' => contains x s'
  end.

(** [sep.join(l)] *)
Fixpoint join (sep : string) (l : list string) : string :=
  match l with
  | [] => ""
  | [x] => x
  | x :: l' => x ++ sep ++ join sep l'
  end.

(** [s.split(",")]: never empty, [''.split(",") = ['']]. *)
Fixpoint split_comma (s : string) : list string :=
  match s with
  | EmptyString => [""]
  | String c s' =>
      if Ascii.eqb c "," then "" :: split_comma s'
      else match split_comma s' with
           | h :: t => String c h :: t
           | [] => [String c ""]
           end
  end.

(** [any(x in s for x in phrases)] *)
Definition any_in (phrases : list string) (s : string) : bool :=
  existsb (fun x => contains x s) phrases.

(** [x in l] for a list of strings. *)
Definition mem (x : string) (l : list string) : bool :=
  existsb (String.eqb x) l.

End PyStr.

(** ** Values, alert records and the admin map *)

(** The values of a flattened alert record: the hashable JSON scalars. *)
Inductive pyval : Type :=
| VNone
| VBool (b : bool)
| VInt (z : Z)
| VStr (s : string).

(** An alert record is a [dict] with string keys, kept in insertion
    order. *)
Definition record : Type := list (string * pyval).

(** [list(row.keys())] and [list(row.values())] *)
Definition keys (row : record) : list string := map fst row.
Definition values (row : record) : list pyval := map snd row.

(** [row.get(k, default)] *)
Fixpoint dict_get (row : record) (k : string) (default : pyval) : pyval :=
  match row with
  | [] => default
  | (k', v) :: row' => if String.eqb k' k then v else dict_get row' k default
  end.

(** [k in row] *)
Definition has_key (row : record) (k : string) : bool := PyStr.mem k (keys row).

(** [scope_name] is [os.getenv("SCOPE_NAME", os.getenv("GITHUB_REPOSITORY"))]:
    a string, or [None] when neither variable is set. *)
Definition name : Type := option string.

Definition val_of_name (n : name) : pyval :=
  match n with
  | Some s => VStr s
  | None => VNone
  end.

(** The key under which a value is found in a [dict] whose keys are names;
    a bool or an int equals none of them. *)
Definition name_of_val (v : pyval) : option name :=
  match v with
  | VStr s => Some (Some s)
  | VNone => Some None
  | VBool _ | VInt _ => None
  end.

(** [admin_details.get(repo_name, [])] *)
Definition admins_get (admin_details : gmap name (list string)) (repo_name : pyval)
  : list string :=
  match name_of_val repo_name with
  | Some k => default [] (admin_details !! k)
  | None => []
  end.

(** ** Exceptions, the observable state and the monad of the script *)

Inductive exn : Type :=
| IndexError                      (* [data[0]] on an empty list *)
| Error (text : string)           (* an [Exception] raised by a call to [api] *)
| SystemExit (msg : string).      (* raised by [exit(msg)] *)

(** [str(e)] *)
Definition str (e : exn) : string :=
  match e with
  | IndexError => "list index out of range"
  | Error text => text
  | SystemExit msg => msg
  end.

(** [isinstance(e, Exception)]: [SystemExit] derives from [BaseException]
    only, so [except Exception] lets it through. *)
Definition is_Exception (e : exn) : bool :=
  match e with
  | SystemExit _ => false
  | _ => true
  end.

(** The functions of the modules that [main.py] imports. *)
Inductive call : Type :=
| requests_get_call
| get_enterprise_ss_alerts_call
| get_org_ss_alerts_call
| get_repo_ss_alerts_call
| get_enterprise_version_call
| get_repo_report_call
| list_enterprise_server_cs_alerts_call
| list_enterprise_cloud_cs_alerts_call
| list_org_cs_alerts_call
| list_repo_cs_alerts_call
| list_enterprise_dependabot_alerts_call
| list_org_dependabot_alerts_call
| list_repo_dependabot_alerts_call.

(** A CSV file is the sequence of rows given to [writer.writerow]. *)
Definition csv : Type := list (list pyval).

Record state : Type := State {
  files : gmap string csv;       (* the files of the working directory *)
  stdout : list string;          (* the lines printed so far *)
  calls : list call              (* the calls made to [api] so far *)
}.

Definition set_files (f : gmap string csv → gmap string csv) (st : state) : state :=
  State (f (files st)) (stdout st) (calls st).
Definition add_stdout (line : string) (st : state) : state :=
  State (files st) (stdout st ++ [line]) (calls st).
Definition add_call (c : call) (st : state) : state :=
  State (files st) (stdout st) (calls st ++ [c]).

(** A computation ends in a value or in a raised exception; the state
    reached is kept in both cases. *)
Definition M (A : Type) : Type := state → state * (exn + A).

Definition ret {A} (a : A) : M A := fun st => (st, inr a).
Definition raise {A} (e : exn) : M A := fun st => (st, inl e).
Definition bind {A B} (m : M A) (k : A → M B) : M B :=
  fun st =>
    match m st with
    | (st', inr a) => k a st'
    | (st', inl e) => (st', inl e)
    end.

Declare Scope py_scope.
Delimit Scope py_scope with py.
Notation "x <- m ;; k" := (bind m (fun x => k))
  (at level 100, m at next level, right associativity) : py_scope.
Notation "m ;; k" := (bind m (fun _ => k))
  (at level 100, right associativity) : py_scope.
Local Open Scope py_scope.

(** [print(line)] *)
Definition print (line : string) : M unit := fun st => (add_stdout line st, inr tt).

(** [if c: body] *)
Definition when (c : bool) (body : M unit) : M unit := if c then body else ret tt.

(** [for x in l: body(x)], for a list that the body does not change. *)
Fixpoint for_each {A} (l : list A) (body : A → M unit) : M unit :=
  match l with
  | [] => ret tt
  | x :: l' => body x ;; for_each l' body
  end.

(** [try: body / except Exception as e: handler(e)] *)
Definition try_except {A} (body : M A) (handler : exn → M A) : M A :=
  fun st =>
    match body st with
    | (st', inl e) => if is_Exception e then handler e st' else (st', inl e)
    | r => r
    end.

(** What a call to an imported function does: it returns a value or raises
    an [Exception] whose [str] is the given text. *)
Definition result (A : Type) : Type := (string + A)%type.

Definition perform {A} (c : call) (r : result A) : M A :=
  fun st =>
    match r with
    | inl text => (add_call c st, inl (Error text))
    | inr a => (add_call c st, inr a)
    end.

(** ** The imported modules *)

Record collaborator : Type := Collaborator {
  login : string;
  permissions_admin : bool
}.

Record response : Type := Response {
  raise_for_status : option string;   (* [Some text]: raises with that text *)
  json : list collaborator
}.

Record api : Type := Api {
  requests_get : string → string → result response;
  get_enterprise_ss_alerts : string → option string → name → result (list record);
  get_org_ss_alerts : string → option string → name → result (list record);
  get_repo_ss_alerts : string → option string → name → result (list record);
  get_enterprise_version : string → result string;
  get_repo_report : string → option string → result (list string);
  list_enterprise_server_cs_alerts :
    string → option string → list string → result (list record);
  list_enterprise_cloud_cs_alerts : string → option string → name → result (list record);
  list_org_cs_alerts : string → option string → name → result (list record);
  list_repo_cs_alerts : string → option string → name → result (list record);
  list_enterprise_dependabot_alerts :
    string → option string → name → result (list record);
  list_org_dependabot_alerts : string → option string → name → result (list record);
  list_repo_dependabot_alerts : string → option string → name → result (list record)
}.

(** ** Configuration (module level of [main.py]) *)

Definition secret_scanning_disabled_strings : list string :=
  ["secret scanning is not enabled"; "secret scanning is disabled"].
Definition dependabot_disabled_strings : list string :=
  ["dependabot alerts are not enabled"; "dependabot alerts are disabled"].

Definition FEATURES : list string := ["secretscanning"; "codescanning"; "dependabot"].

Record config : Type := Config {
  api_endpoint : string;
  url : string;
  github_pat : option string;
  report_scope : string;
  scope_name : name;
  features : list string
}.

(** [l.remove(x)]: the first occurrence of [x] goes ([x] is always in [l]
    where the script calls it). *)
Fixpoint list_remove (x : string) (l : list string) : list string :=
  match l with
  | [] => []
  | y :: l' => if String.eqb y x then l' else y :: list_remove x l'
  end.

(** The warning printed for an invalid feature; [{FEATURES}] is the [repr]
    of the list. *)
Definition invalid_feature (f : string) : string :=
  "Invalid feature: " ++ f ++
  ". Proceeding without. Valid features are: ['secretscanning', 'codescanning', 'dependabot']".

(** [for f in features: if f not in FEATURES: print(...); features.remove(f)].
    The list iterator of Python holds an index [i]: each turn reads
    [features[i]] from the list as it is then and moves to [i + 1]; it stops
    when [i] is past the end. Each turn uses one unit of [fuel]. *)
Fixpoint drop_invalid (fuel i : nat) (features : list string) : M (list string) :=
  match fuel with
  | O => ret features
  | S fuel' =>
      match features !! i with
      | None => ret features
      | Some f =>
          if negb (PyStr.mem f FEATURES)
          then print (invalid_feature f) ;; drop_invalid fuel' (S i) (list_remove f features)
          else drop_invalid fuel' (S i) features
      end
  end.

(** The same loop as a relation, without fuel: from index [i] and list
    [features] the loop ends with the list [final] after printing [out]. *)
Inductive loop_run : nat → list string → list string → list string → Prop :=
| loop_stop i features :
    features !! i = None →
    loop_run i features features []
| loop_keep i features f final out :
    features !! i = Some f →
    PyStr.mem f FEATURES = true →
    loop_run (S i) features final out →
    loop_run i features final out
| loop_drop i features f final out :
    features !! i = Some f →
    PyStr.mem f FEATURES = false →
    loop_run (S i) (list_remove f features) final out →
    loop_run i features final (invalid_feature f :: out).

(** [features] as computed from [requested_features = os.getenv("FEATURES")]. *)
Definition resolve_features (requested_features : option string) : M (list string) :=
  match requested_features with
  | None => ret FEATURES
  | Some r =>
      if String.eqb r "all" then ret FEATURES
      else let features := PyStr.split_comma r in
           drop_invalid (length features) 0 features
  end.

(** [os.getenv(k, d)] with a string default. *)
Definition getenv (environ : gmap string string) (k d : string) : string :=
  default d (environ !! k).

(** [os.getenv(k, os.getenv(k'))] *)
Definition getenv2 (environ : gmap string string) (k k' : string) : option string :=
  match environ !! k with
  | Some v => Some v
  | None => environ !! k'
  end.

Definition read_config (environ : gmap string string) : M config :=
  features <- resolve_features (environ !! "FEATURES") ;;
  ret {| api_endpoint := getenv environ "GITHUB_API_URL" "https://api.github.com";
         url := getenv environ "GITHUB_SERVER_URL" "https://github.com";
         github_pat := getenv2 environ "GITHUB_PAT" "GITHUB_TOKEN";
         report_scope := getenv environ "GITHUB_REPORT_SCOPE" "repository";
         scope_name := getenv2 environ "SCOPE_NAME" "GITHUB_REPOSITORY";
         features := features |}.

(** ** [get_repo_admins] *)

(** [f"{n}"] *)
Definition fmt (n : option string) : string :=
  match n with
  | Some s => s
  | None => "None"
  end.

Definition get_repo_admins (A : api) (repo_name : name) (api_endpoint : string)
    (github_pat : option string) : M (list string) :=
  let authorization := "token " ++ fmt github_pat in
  let url := api_endpoint ++ "/repos/" ++ fmt repo_name ++ "/collaborators?affiliation=admin" in
  response <- perform requests_get_call (requests_get A url authorization) ;;
  match raise_for_status response with
  | Some text => raise (Error text)
  | None => ret tt
  end ;;
  ret (map login (List.filter permissions_admin (json response))).

(** ** [write_csv_with_admins] *)

(** [open(filename, mode='w')]: the file exists and is empty. *)
Definition open_w (filename : string) : M unit :=
  fun st => (set_files (fun fs => <[filename := []]> fs) st, inr tt).

(** [writer.writerow(row)] on the writer of [filename]. *)
Definition writerow (filename : string) (row : list pyval) : M unit :=
  fun st =>
    (set_files (fun fs => <[filename := (default [] (fs !! filename) ++ [row])%list]> fs) st,
     inr tt).

(** The row written for one record. *)
Definition data_row (scope_name : name) (admin_details : gmap name (list string))
    (row : record) : list pyval :=
  let repo_name := dict_get row "repository" (val_of_name scope_name) in
  let admins := admins_get admin_details repo_name in
  (values row ++ [VStr (PyStr.join ", " admins)])%list.

Definition write_csv_with_admins (scope_name : name) (filename : string)
    (data : list record) (admin_details : gmap name (list string)) : M unit :=
  open_w filename ;;
  headers <- match data with
             | [] => raise IndexError
             | first :: _ => ret (map VStr (keys first) ++ [VStr "Admins"])%list
             end ;;
  writerow filename headers ;;
  for_each data (fun row => writerow filename (data_row scope_name admin_details row)).

(** ** The orchestrator ([if __name__ == "__main__"]) *)

(** [exit(msg)] *)
Definition exit {A} (msg : string) : M A := raise (SystemExit msg).

(** [for x in l: acc = body(x, acc)], for the loop that fills a [dict]. *)
Fixpoint for_fold {A S} (l : list A) (acc : S) (body : A → S → M S) : M S :=
  match l with
  | [] => ret acc
  | x :: l' => acc' <- body x acc ;; for_fold l' acc' body
  end.

Section Main.

Variable A : api.
Variable c : config.

(** Lines 77-85: the admin map. *)
Definition fetch_admin_details : M (gmap name (list string)) :=
  let admin_details : gmap name (list string) := ∅ in
  if String.eqb (report_scope c) "repository" then
    admins <- get_repo_admins A (scope_name c) (api_endpoint c) (github_pat c) ;;
    ret (<[scope_name c := admins]> admin_details)
  else if PyStr.mem (report_scope c) ["organization"; "enterprise"] then
    let repos := [scope_name c] in
    for_fold repos admin_details (fun repo admin_details =>
      admins <- get_repo_admins A repo (api_endpoint c) (github_pat c) ;;
      ret (<[repo := admins]> admin_details))
  else ret admin_details.

(** Lines 87-181: the three scope branches. *)
Definition run_scope (admin_details : gmap name (list string)) : M unit :=
  if String.eqb (report_scope c) "enterprise" then
    (when (PyStr.mem "secretscanning" (features c))
       (try_except
          (secrets_list <- perform get_enterprise_ss_alerts_call
             (get_enterprise_ss_alerts A (api_endpoint c) (github_pat c) (scope_name c)) ;;
           write_csv_with_admins (scope_name c) "enterprise_secret_scanning.csv"
             secrets_list admin_details)
          (fun e =>
             if PyStr.any_in secret_scanning_disabled_strings (PyStr.lower (str e))
             then print "Skipping Secret Scanning as it is not enabled." ;; print (str e)
             else raise e)) ;;
     when (PyStr.mem "codescanning" (features c))
       (version <- perform get_enterprise_version_call
          (get_enterprise_version A (api_endpoint c)) ;;
        if PyStr.startswith version "3.5" || PyStr.startswith version "3.6" then
          repo_list <- perform get_repo_report_call
            (get_repo_report A (url c) (github_pat c)) ;;
          cs_list <- perform list_enterprise_server_cs_alerts_call
            (list_enterprise_server_cs_alerts A (api_endpoint c) (github_pat c) repo_list) ;;
          write_csv_with_admins (scope_name c) "enterprise_code_scanning.csv"
            cs_list admin_details
        else
          cs_list <- perform list_enterprise_cloud_cs_alerts_call
            (list_enterprise_cloud_cs_alerts A (api_endpoint c) (github_pat c)
               (scope_name c)) ;;
          write_csv_with_admins (scope_name c) "enterprise_code_scanning.csv"
            cs_list admin_details) ;;
     when (PyStr.mem "dependabot" (features c))
       (try_except
          (dependabot_list <- perform list_enterprise_dependabot_alerts_call
             (list_enterprise_dependabot_alerts A (api_endpoint c) (github_pat c)
                (scope_name c)) ;;
           write_csv_with_admins (scope_name c) "enterprise_dependabot.csv"
             dependabot_list admin_details)
          (fun e =>
             if PyStr.any_in dependabot_disabled_strings (PyStr.lower (str e))
             then print "Skipping Dependabot as it is not enabled." ;; print (str e)
             else raise e)))
  else if String.eqb (report_scope c) "organization" then
    (when (PyStr.mem "codescanning" (features c))
       (cs_list <- perform list_org_cs_alerts_call
          (list_org_cs_alerts A (api_endpoint c) (github_pat c) (scope_name c)) ;;
        write_csv_with_admins (scope_name c) "organization_code_scanning.csv"
          cs_list admin_details) ;;
     when (PyStr.mem "dependabot" (features c))
       (try_except
          (dependabot_list <- perform list_org_dependabot_alerts_call
             (list_org_dependabot_alerts A (api_endpoint c) (github_pat c)
                (scope_name c)) ;;
           write_csv_with_admins (scope_name c) "organization_dependabot.csv"
             dependabot_list admin_details)
          (fun e =>
             if PyStr.any_in dependabot_disabled_strings (PyStr.lower (str e))
             then print "Skipping Dependabot as it is not enabled." ;; print (str e)
             else raise e)) ;;
     when (PyStr.mem "secretscanning" (features c))
       (try_except
          (secrets_list <- perform get_org_ss_alerts_call
             (get_org_ss_alerts A (api_endpoint c) (github_pat c) (scope_name c)) ;;
           write_csv_with_admins (scope_name c) "organization_secret_scanning.csv"
             secrets_list admin_details)
          (fun e =>
             if PyStr.any_in secret_scanning_disabled_strings (PyStr.lower (str e))
             then print "Skipping Secret Scanning as it is not enabled." ;; print (str e)
             else raise e)))
  else if String.eqb (report_scope c) "repository" then
    (when (PyStr.mem "codescanning" (features c))
       (cs_list <- perform list_repo_cs_alerts_call
          (list_repo_cs_alerts A (api_endpoint c) (github_pat c) (scope_name c)) ;;
        write_csv_with_admins (scope_name c) "repository_code_scanning.csv"
          cs_list admin_details) ;;
     when (PyStr.mem "dependabot" (features c))
       (try_except
          (dependabot_list <- perform list_repo_dependabot_alerts_call
             (list_repo_dependabot_alerts A (api_endpoint c) (github_pat c)
                (scope_name c)) ;;
           write_csv_with_admins (scope_name c) "repository_dependabot.csv"
             dependabot_list admin_details)
          (fun e =>
             if PyStr.any_in dependabot_disabled_strings (PyStr.lower (str e))
             then print "Skipping Dependabot as it is not enabled." ;; print (str e)
             else raise e)) ;;
     when (PyStr.mem "secretscanning" (features c))
       (try_except
          (secrets_list <- perform get_repo_ss_alerts_call
             (get_repo_ss_alerts A (api_endpoint c) (github_pat c) (scope_name c)) ;;
           write_csv_with_admins (scope_name c) "repository_secret_scanning.csv"
             secrets_list admin_details)
          (fun e =>
             if PyStr.any_in secret_scanning_disabled_strings (PyStr.lower (str e))
             then print "Skipping Secret Scanning as it is not enabled." ;; print (str e)
             else raise e)))
  else exit "Invalid report scope".

Definition main : M unit :=
  print "Starting GitHub security report..." ;;
  admin_details <- fetch_admin_details ;;
  run_scope admin_details.

End Main.

(** The whole script: the module level, then [main]. *)
Definition script (A : api) (environ : gmap string string) : M unit :=
  c <- read_config environ ;;
  main A c.

(** The exit status of the process: an uncaught exception and [exit] with
    a message both give 1. *)
Definition exit_status (r : exn + unit) : Z :=
  match r with
  | inr _ => 0
  | inl _ => 1
  end.

(** What the interpreter writes to standard error for [exit(msg)]. *)
Definition exit_message (r : exn + unit) : option string :=
  match r with
  | inl (SystemExit msg) => Some msg
  | _ => None
  end.

Definition initial : state := State ∅ [] [].

(** ** The orchestrator as a table of feature blocks

    Every feature block of [run_scope] has the same shape: a test of the
    feature name, a fetch, a call of [write_csv_with_admins] on a fixed file
    name and, for secret scanning and Dependabot, an [except] clause with a
    phrase list and a notice. [scope_blocks] lists the blocks of the branch
    taken, in the order of the source; [run_scope_blocks] below proves that
    [run_scope] runs exactly this list. *)

Record block : Type := Block {
  b_feature : string;                          (* the name tested in [features] *)
  b_file : string;                             (* the CSV file of the block *)
  b_fetch : M (list record);                   (* the calls that fetch the alerts *)
  b_except : option (list string * string)     (* phrases and notice of the handler *)
}.

(** The [except] clause shared by the guarded blocks. *)
Definition skip_if_disabled (phrases : list string) (notice : string) (e : exn) : M unit :=
  if PyStr.any_in phrases (PyStr.lower (str e))
  then print notice ;; print (str e)
  else raise e.

Definition ss_handler : option (list string * string) :=
  Some (secret_scanning_disabled_strings, "Skipping Secret Scanning as it is not enabled.").
Definition dependabot_handler : option (list string * string) :=
  Some (dependabot_disabled_strings, "Skipping Dependabot as it is not enabled.").

Section Blocks.

Variable A : api.
Variable c : config.

(** Lines 102-111 without the two calls of the writer: the version probe
    and the fetch it selects. *)
Definition enterprise_cs_fetch : M (list record) :=
  version <- perform get_enterprise_version_call
    (get_enterprise_version A (api_endpoint c)) ;;
  if PyStr.startswith version "3.5" || PyStr.startswith version "3.6" then
    repo_list <- perform get_repo_report_call (get_repo_report A (url c) (github_pat c)) ;;
    perform list_enterprise_server_cs_alerts_call
      (list_enterprise_server_cs_alerts A (api_endpoint c) (github_pat c) repo_list)
  else
    perform list_enterprise_cloud_cs_alerts_call
      (list_enterprise_cloud_cs_alerts A (api_endpoint c) (github_pat c) (scope_name c)).

Definition enterprise_ss : block :=
  Block "secretscanning" "enterprise_secret_scanning.csv"
    (perform get_enterprise_ss_alerts_call
       (get_enterprise_ss_alerts A (api_endpoint c) (github_pat c) (scope_name c)))
    ss_handler.
Definition enterprise_cs : block :=
  Block "codescanning" "enterprise_code_scanning.csv" enterprise_cs_fetch None.
Definition enterprise_dependabot : block :=
  Block "dependabot" "enterprise_dependabot.csv"
    (perform list_enterprise_dependabot_alerts_call
       (list_enterprise_dependabot_alerts A (api_endpoint c) (github_pat c) (scope_name c)))
    dependabot_handler.

Definition org_cs : block :=
  Block "codescanning" "organization_code_scanning.csv"
    (perform list_org_cs_alerts_call
       (list_org_cs_alerts A (api_endpoint c) (github_pat c) (scope_name c)))
    None.
Definition org_dependabot : block :=
  Block "dependabot" "organization_dependabot.csv"
    (perform list_org_dependabot_alerts_call
       (list_org_dependabot_alerts A (api_endpoint c) (github_pat c) (scope_name c)))
    dependabot_handler.
Definition org_ss : block :=
  Block "secretscanning" "organization_secret_scanning.csv"
    (perform get_org_ss_alerts_call
       (get_org_ss_alerts A (api_endpoint c) (github_pat c) (scope_name c)))
    ss_handler.

Definition repo_cs : block :=
  Block "codescanning" "repository_code_scanning.csv"
    (perform list_repo_cs_alerts_call
       (list_repo_cs_alerts A (api_endpoint c) (github_pat c) (scope_name c)))
    None.
Definition repo_dependabot : block :=
  Block "dependabot" "repository_dependabot.csv"
    (perform list_repo_dependabot_alerts_call
       (list_repo_dependabot_alerts A (api_endpoint c) (github_pat c) (scope_name c)))
    dependabot_handler.
Definition repo_ss : block :=
  Block "secretscanning" "repository_secret_scanning.csv"
    (perform get_repo_ss_alerts_call
       (get_repo_ss_alerts A (api_endpoint c) (github_pat c) (scope_name c)))
    ss_handler.

(** The blocks of the branch selected by [report_scope], [None] for the
    final [else]. *)
Definition scope_blocks : option (list block) :=
  if String.eqb (report_scope c) "enterprise"
  then Some [enterprise_ss; enterprise_cs; enterprise_dependabot]
  else if String.eqb (report_scope c) "organization"
  then Some [org_cs; org_dependabot; org_ss]
  else if String.eqb (report_scope c) "repository"
  then Some [repo_cs; repo_dependabot; repo_ss]
  else None.

(** One block: [if feature in features: (try:) fetch; write (except: ...)]. *)
Definition run_block (admin_details : gmap name (list string)) (b : block) : M unit :=
  when (PyStr.mem (b_feature b) (features c))
    (let body :=
       (data <- b_fetch b ;;
        write_csv_with_admins (scope_name c) (b_file b) data admin_details) in
     match b_except b with
     | Some (phrases, notice) => try_except body (skip_if_disabled phrases notice)
     | None => body
     end).

End Blocks.

(** ** Vocabulary of the specification *)

(** The order of the features in each scope, as the specification gives
    it. *)
Definition scope_order (report_scope : string) : list string :=
  if String.eqb report_scope "enterprise"
  then ["secretscanning"; "codescanning"; "dependabot"]
  else ["codescanning"; "dependabot"; "secretscanning"].

(** The feature on whose behalf a call is made; the admin lookup belongs to
    none. *)
Definition feature_of_call (k : call) : option string :=
  match k with
  | requests_get_call => None
  | get_enterprise_ss_alerts_call | get_org_ss_alerts_call | get_repo_ss_alerts_call =>
      Some "secretscanning"
  | get_enterprise_version_call | get_repo_report_call
  | list_enterprise_server_cs_alerts_call | list_enterprise_cloud_cs_alerts_call
  | list_org_cs_alerts_call | list_repo_cs_alerts_call =>
      Some "codescanning"
  | list_enterprise_dependabot_alerts_call | list_org_dependabot_alerts_call
  | list_repo_dependabot_alerts_call =>
      Some "dependabot"
  end.

(** A run of equal neighbours counts once. *)
Fixpoint collapse (l : list string) : list string :=
  match l with
  | [] => []
  | x :: l' =>
      match l' with
      | y :: _ => if String.eqb x y then collapse l' else x :: collapse l'
      | [] => [x]
      end
  end.

(** The features fetched, in the order of their first call. *)
Definition fetched (st : state) : list string :=
  collapse (omap feature_of_call (calls st)).

(** The phrases of both lists. *)
Definition known_disabled_strings : list string :=
  (secret_scanning_disabled_strings ++ dependabot_disabled_strings)%list.

(** The three valid scopes. *)
Definition valid_scope (report_scope : string) : bool :=
  PyStr.mem report_scope ["enterprise"; "organization"; "repository"].

(** The run of [main] from [st0] has fetched the admin map [d] and has run
    the blocks [pre] to their end, reaching the state [s]. *)
Definition reaches (A : api) (c : config) (st0 : state) (d : gmap name (list string))
    (pre : list block) (s : state) : Prop :=
  ∃ s0,
    fetch_admin_details A c (add_stdout "Starting GitHub security report..." st0)
      = (s0, inr d) ∧
    for_each pre (run_block c d) s0 = (s, inr tt).

(** What the fetch of a block of feature [f] may do: it adds calls made for
    [f], at least one, changes nothing else, and raises only what the
    imported function raised. *)
Definition fetch_of (f : string) (m : M (list record)) : Prop :=
  ∀ s, ∃ cs r,
    m s = (State (files s) (stdout s) (calls s ++ cs), r) ∧
    cs ≠ [] ∧
    Forall (fun k => feature_of_call k = Some f) cs ∧
    (∀ e, r = inl e → ∃ text, e = Error text).

(** [runs tr fs]: the trace [tr] is a run of one or more [f] for each [f]
    of [fs], in the order of [fs]. *)
Inductive runs : list string → list string → Prop :=
| runs_nil : runs [] []
| runs_cons f n tr fs : runs tr fs → runs (replicate (S n) f ++ tr) (f :: fs).

(** [f in features], as a test on [f]. *)
Definition requested (c : config) (f : string) : bool := PyStr.mem f (features c).

(** ** Sample inputs *)

Module Sample.

Definition ok_response : response :=
  Response None
    [Collaborator "alice" true; Collaborator "bob" false; Collaborator "carol" true].

Definition alert1 : record := [("number", VInt 1); ("state", VStr "open")].
Definition alert2 : record :=
  [("number", VInt 2); ("state", VStr "open"); ("repository", VStr "octo/other")].

(** An [api] whose admin lookup succeeds, whose version probe returns
    [version] and whose secret scanning, code scanning and Dependabot
    fetches end as [ss], [cs] and [dep] in every scope. *)
Definition make_api (version : string) (ss cs dep : result (list record)) : api :=
  Api (fun _ _ => inr ok_response)
      (fun _ _ _ => ss) (fun _ _ _ => ss) (fun _ _ _ => ss)
      (fun _ => inr version) (fun _ _ => inr ["octo/repo"])
      (fun _ _ _ => cs) (fun _ _ _ => cs) (fun _ _ _ => cs) (fun _ _ _ => cs)
      (fun _ _ _ => dep) (fun _ _ _ => dep) (fun _ _ _ => dep).

Definition make_config (report_scope : string) (features : list string) : config :=
  Config "https://api.github.com" "https://github.com" (Some "ghp_token")
    report_scope (Some "octo/repo") features.

Definition admins : gmap name (list string) := {[Some "octo/repo" := ["alice"; "carol"]]}.

(** The state after [print("Starting ...")] and the admin lookup. *)
Definition started : state :=
  State ∅ ["Starting GitHub security report..."] [requests_get_call].

Definition ss_disabled : string := "403 Secret scanning is disabled on this repository.".
Definition server_error : string := "500 Server Error: Internal Server Error".

(** Every fetch returns one alert, the server is a 3.6.1. *)
Definition api_ok : api := make_api "3.6.1" (inr [alert1]) (inr [alert1; alert2]) (inr [alert1]).
(** The same with a 3.9.0 server. *)
Definition api_ok_39 : api :=
  make_api "3.9.0" (inr [alert1]) (inr [alert1; alert2]) (inr [alert1]).
(** Secret scanning is disabled. *)
Definition api_ss_disabled : api :=
  make_api "3.6.1" (inl ss_disabled) (inr [alert1]) (inr [alert1]).
(** The Dependabot fetch meets a server error. *)
Definition api_dep_error : api :=
  make_api "3.6.1" (inr [alert1]) (inr [alert1]) (inl server_error).
(** Dependabot is enabled and has no alert. *)
Definition api_dep_empty : api := make_api "3.6.1" (inr [alert1]) (inr [alert1]) (inr []).
(** The code scanning fetch raises with the text of a disabled secret
    scanning. *)
Definition api_cs_raises : api :=
  make_api "3.6.1" (inr [alert1]) (inl ss_disabled) (inr [alert1]).
(** The Dependabot fetch raises with the text of a disabled secret
    scanning. *)
Definition api_dep_raises_ss : api :=
  make_api "3.6.1" (inr [alert1]) (inr [alert1]) (inl ss_disabled).

End Sample.

Module SampleRuns.
Import Sample.

Definition org_all : config := make_config "organization" FEATURES.
Definition enterprise_all : config := make_config "enterprise" FEATURES.
Definition repo_all : config := make_config "repository" FEATURES.
Definition repo_dependabot_only : config := make_config "repository" ["dependabot"].
Definition org_two : config := make_config "organization" ["secretscanning"; "codescanning"].

Definition one_alert_csv : csv :=
  [[VStr "number"; VStr "state"; VStr "Admins"];
   [VInt 1; VStr "open"; VStr "alice, carol"]].

(** Organization scope, after the code scanning block. *)
Definition after_org_cs : state :=
  State {["organization_code_scanning.csv" := one_alert_csv]}
    ["Starting GitHub security report..."]
    [requests_get_call; list_org_cs_alerts_call].

(** Enterprise scope, after the secret scanning block. *)
Definition after_enterprise_ss : state :=
  State {["enterprise_secret_scanning.csv" := one_alert_csv]}
    ["Starting GitHub security report..."]
    [requests_get_call; get_enterprise_ss_alerts_call].

End SampleRuns.

(** ** Further vocabulary *)

(** [f in FEATURES] *)
Definition valid_feature (f : string) : bool := PyStr.mem f FEATURES.

(** No invalid name of the list is followed at once by another invalid
    name. *)
Fixpoint no_adjacent_invalid (l : list string) : bool :=
  match l with
  | [] => true
  | x :: l' =>
      match l' with
      | [] => true
      | y :: _ => (valid_feature x || valid_feature y) && no_adjacent_invalid l'
      end
  end.

(** The configuration [c] with another feature list. *)
Definition with_features (c : config) (fs : list string) : config :=
  Config (api_endpoint c) (url c) (github_pat c) (report_scope c) (scope_name c) fs.

(** The feature names and the part of the file name that stands for each. *)
Definition csv_stems : list (string * string) :=
  [("secretscanning", "secret_scanning"); ("codescanning", "code_scanning");
   ("dependabot", "dependabot")].

(** The name of the CSV file of a scope and a feature: [{scope}_{stem}.csv]. *)
Definition csv_name (report_scope stem : string) : string :=
  report_scope ++ "_" ++ stem ++ ".csv".

Module SampleExtra.

Definition forbidden : string := "403 Client Error: Forbidden for url".

(** The admin lookup is refused; the fetches would succeed. *)
Definition api_admin_forbidden : api :=
  Api (fun _ _ => inr (Response (Some forbidden) []))
      (fun _ _ _ => inr [Sample.alert1]) (fun _ _ _ => inr [Sample.alert1])
      (fun _ _ _ => inr [Sample.alert1])
      (fun _ => inr "3.6.1") (fun _ _ => inr ["octo/repo"])
      (fun _ _ _ => inr [Sample.alert1]) (fun _ _ _ => inr [Sample.alert1])
      (fun _ _ _ => inr [Sample.alert1]) (fun _ _ _ => inr [Sample.alert1])
      (fun _ _ _ => inr [Sample.alert1]) (fun _ _ _ => inr [Sample.alert1])
      (fun _ _ _ => inr [Sample.alert1]).

(** The response lists an admin twice, with a collaborator who is not an
    admin in between. *)
Definition api_alice_twice : api :=
  Api (fun _ _ => inr (Response None
         [Collaborator "alice" true; Collaborator "bob" false;
          Collaborator "alice" true]))
      (fun _ _ _ => inr [Sample.alert1]) (fun _ _ _ => inr [Sample.alert1])
      (fun _ _ _ => inr [Sample.alert1])
      (fun _ => inr "3.6.1") (fun _ _ => inr ["octo/repo"])
      (fun _ _ _ => inr [Sample.alert1]) (fun _ _ _ => inr [Sample.alert1])
      (fun _ _ _ => inr [Sample.alert1]) (fun _ _ _ => inr [Sample.alert1])
      (fun _ _ _ => inr [Sample.alert1]) (fun _ _ _ => inr [Sample.alert1])
      (fun _ _ _ => inr [Sample.alert1]).

(** A server whose version begins with "3.5" without being a 3.5. *)
Definition api_350 : api :=
  Sample.make_api "3.50.2" (inr [Sample.alert1]) (inr [Sample.alert1])
    (inr [Sample.alert1]).

(** An alert of the repository the run is about. *)
Definition alert3 : record :=
  [("number", VInt 3); ("repository", VStr "octo/repo"); ("state", VStr "fixed")].

Definition two_bogus : string := "bogus1,bogus2,dependabot".
Definition apart_bogus : string := "bogus,secretscanning,nope,dependabot".

Definition env_two_bogus : gmap string string := {["FEATURES" := two_bogus]}.

End SampleExtra.

(** * Properties *)

(** ** The monad *)

Lemma bind_ext {A B} (m1 m2 : M A) (k1 k2 : A → M B) st :
  (∀ s, m1 s = m2 s) → (∀ a s, k1 a s = k2 a s) → bind m1 k1 st = bind m2 k2 st.
Proof.
  intros Hm Hk. unfold bind. rewrite Hm.
  destruct (m2 st) as [s [e|a]]; [reflexivity | apply Hk].
Qed.

Lemma bind_ret_tt (m : M unit) st : (m ;; ret tt) st = m st.
Proof. unfold bind, ret. destruct (m st) as [s [e|[]]]; reflexivity. Qed.

Lemma bind_assoc {A B C} (m : M A) (k : A → M B) (h : B → M C) st :
  (y <- (x <- m ;; k x) ;; h y) st = (x <- m ;; y <- k x ;; h y) st.
Proof. unfold bind. destruct (m st) as [s [e|a]]; reflexivity. Qed.

Lemma bind_if {A B} (b : bool) (m1 m2 : M A) (k : A → M B) st :
  (x <- (if b then m1 else m2) ;; k x) st =
  (if b then x <- m1 ;; k x else x <- m2 ;; k x) st.
Proof. destruct b; reflexivity. Qed.

Lemma when_ext (b : bool) (m1 m2 : M unit) st :
  (∀ s, m1 s = m2 s) → when b m1 st = when b m2 st.
Proof. intros H. destruct b; simpl; [apply H | reflexivity]. Qed.

(** A loop over [l1 ++ l2] runs [l1], then [l2] unless [l1] raised. *)
Lemma for_each_app {A} (l1 l2 : list A) (body : A → M unit) st :
  for_each (l1 ++ l2) body st =
  match for_each l1 body st with
  | (s, inr _) => for_each l2 body s
  | (s, inl e) => (s, inl e)
  end.
Proof.
  revert st. induction l1 as [|x l1 IH]; intros st; [reflexivity |].
  cbn [for_each app]. unfold bind.
  destruct (body x st) as [s [e|[]]]; [reflexivity | apply IH].
Qed.

(** ** [run_scope] runs the table *)

Lemma enterprise_cs_block A c d st :
  (version <- perform get_enterprise_version_call
     (get_enterprise_version A (api_endpoint c)) ;;
   if PyStr.startswith version "3.5" || PyStr.startswith version "3.6" then
     repo_list <- perform get_repo_report_call
       (get_repo_report A (url c) (github_pat c)) ;;
     cs_list <- perform list_enterprise_server_cs_alerts_call
       (list_enterprise_server_cs_alerts A (api_endpoint c) (github_pat c) repo_list) ;;
     write_csv_with_admins (scope_name c) "enterprise_code_scanning.csv" cs_list d
   else
     cs_list <- perform list_enterprise_cloud_cs_alerts_call
       (list_enterprise_cloud_cs_alerts A (api_endpoint c) (github_pat c)
          (scope_name c)) ;;
     write_csv_with_admins (scope_name c) "enterprise_code_scanning.csv" cs_list d) st =
  (data <- enterprise_cs_fetch A c ;;
   write_csv_with_admins (scope_name c) "enterprise_code_scanning.csv" data d) st.
Proof.
  unfold enterprise_cs_fetch. rewrite bind_assoc.
  apply bind_ext; [reflexivity |]. intros version s.
  rewrite bind_if. destruct (_ || _); [| reflexivity].
  rewrite bind_assoc. reflexivity.
Qed.

Lemma run_scope_blocks A c d st :
  run_scope A c d st =
  match scope_blocks A c with
  | Some bs => for_each bs (run_block c d) st
  | None => exit "Invalid report scope" st
  end.
Proof.
  unfold run_scope, scope_blocks.
  destruct (String.eqb (report_scope c) "enterprise").
  { cbn [for_each].
    apply bind_ext; [reflexivity | intros _ s1].
    apply bind_ext; [intros s | intros _ s2; symmetry; apply bind_ret_tt].
    unfold run_block. cbn [b_feature b_file b_fetch b_except enterprise_cs].
    apply when_ext. apply enterprise_cs_block. }
  destruct (String.eqb (report_scope c) "organization").
  { cbn [for_each].
    apply bind_ext; [reflexivity | intros _ s1].
    apply bind_ext; [reflexivity | intros _ s2; symmetry; apply bind_ret_tt]. }
  destruct (String.eqb (report_scope c) "repository").
  { cbn [for_each].
    apply bind_ext; [reflexivity | intros _ s1].
    apply bind_ext; [reflexivity | intros _ s2; symmetry; apply bind_ret_tt]. }
  reflexivity.
Qed.

(** ** The writer *)

Lemma for_each_writerow filename (g : record → list pyval) (data : list record) rows st :
  files st !! filename = Some rows →
  for_each data (fun row => writerow filename (g row)) st =
  (set_files (fun fs => <[filename := (rows ++ map g data)%list]> fs) st, inr tt).
Proof.
  revert rows st. induction data as [|row data IH]; intros rows st Hrows.
  - cbn. unfold ret, set_files. destruct st as [fs out cs]; cbn in *.
    rewrite app_nil_r, insert_id; done.
  - cbn [for_each map]. unfold bind at 1. unfold writerow at 1.
    unfold set_files at 1. rewrite Hrows. cbn [default].
    rewrite (IH (rows ++ [g row])%list).
    + unfold set_files; cbn. rewrite insert_insert_eq, <- app_assoc. reflexivity.
    + cbn. apply lookup_insert_eq.
Qed.

Lemma write_csv_rows scope_name filename first rest admin_details st :
  write_csv_with_admins scope_name filename (first :: rest) admin_details st =
  (set_files (fun fs => <[filename :=
       (map VStr (keys first) ++ [VStr "Admins"])%list
         :: map (data_row scope_name admin_details) (first :: rest)]> fs) st,
   inr tt).
Proof.
  unfold write_csv_with_admins.
  unfold bind at 1. unfold open_w at 1.
  unfold bind at 1. unfold ret at 1.
  unfold bind at 1. unfold writerow at 1. unfold set_files; cbn [files stdout calls].
  rewrite lookup_insert_eq.
  erewrite for_each_writerow by (cbn [files]; apply lookup_insert_eq).
  unfold set_files; cbn [files stdout calls]. rewrite !insert_insert_eq. reflexivity.
Qed.

Lemma write_csv_empty scope_name filename admin_details st :
  write_csv_with_admins scope_name filename [] admin_details st =
  (set_files (fun fs => <[filename := []]> fs) st, inl IndexError).
Proof. reflexivity. Qed.

(** C2. For a list of records that is not empty, [write_csv_with_admins]
    returns normally and leaves in the file a header, the keys of the first
    record followed by [Admins], and after it one row per record, in order:
    [len(data) + 1] rows. *)
Theorem write_csv_header_and_rows scope_name filename first rest admin_details st :
  let data := first :: rest in
  let r := write_csv_with_admins scope_name filename data admin_details st in
  snd r = inr tt ∧
  ∃ rows,
    files (fst r) !! filename = Some rows ∧
    head rows = Some (map VStr (keys first) ++ [VStr "Admins"])%list ∧
    tail rows = map (data_row scope_name admin_details) data ∧
    length rows = length data + 1.
Proof.
  intros data r. subst r data. rewrite write_csv_rows. cbn [fst snd].
  split; [reflexivity |]. eexists. split.
  - unfold set_files; cbn [files]. apply lookup_insert_eq.
  - cbn [head tail length]. rewrite length_map. cbn [length]. split_and!; [done | done | lia].
Qed.

Lemma lookup_map {X Y} (f : X → Y) (l : list X) i : map f l !! i = f <$> l !! i.
Proof. revert i. induction l as [|x l IH]; intros [|i]; cbn; auto. Qed.

Lemma dict_get_absent row k default :
  has_key row k = false → dict_get row k default = default.
Proof.
  unfold has_key, PyStr.mem, keys.
  induction row as [|[k' v] row IH]; [reflexivity |]. cbn.
  rewrite (String.eqb_sym k k'). destruct (String.eqb k' k); [discriminate | apply IH].
Qed.

Lemma admins_get_name admin_details n :
  admins_get admin_details (val_of_name n) = default [] (admin_details !! n).
Proof. destruct n; reflexivity. Qed.

Lemma data_row_last scope_name admin_details row :
  last (data_row scope_name admin_details row) =
  Some (VStr (PyStr.join ", "
    (admins_get admin_details (dict_get row "repository" (val_of_name scope_name))))).
Proof. unfold data_row. apply last_snoc. Qed.

Lemma get_repo_admins_files A repo_name api_endpoint github_pat st st' r :
  get_repo_admins A repo_name api_endpoint github_pat st = (st', r) →
  st' = add_call requests_get_call st.
Proof.
  unfold get_repo_admins, bind, perform, raise, ret.
  destruct (requests_get _ _ _) as [text|resp]; [congruence |].
  destruct (raise_for_status resp); congruence.
Qed.

Lemma fetch_admin_details_repository A c st st' admins :
  report_scope c = "repository" →
  get_repo_admins A (scope_name c) (api_endpoint c) (github_pat c) st = (st', inr admins) →
  fetch_admin_details A c st = (st', inr {[scope_name c := admins]}).
Proof.
  intros Hs H. unfold fetch_admin_details. rewrite Hs. cbn [String.eqb Ascii.eqb Bool.eqb].
  unfold bind. rewrite H. reflexivity.
Qed.

(** C5. A record without the key [repository] gets, as its Admins cell, the
    admins that the map holds for [scope_name] (none when the map has no
    such key), joined by [", "]. In repository scope the map is
    [{scope_name: get_repo_admins(scope_name)}], so the cell is the join of
    the admins of [scope_name]. *)
Theorem admins_of_scope_name A c admin_details filename data i row st s s' admins :
  data !! i = Some row →
  has_key row "repository" = false →
  (∃ rows cells,
      files (fst (write_csv_with_admins (scope_name c) filename data admin_details st))
        !! filename = Some rows ∧
      rows !! S i = Some cells ∧
      last cells =
        Some (VStr (PyStr.join ", " (default [] (admin_details !! scope_name c))))) ∧
  (report_scope c = "repository" →
   get_repo_admins A (scope_name c) (api_endpoint c) (github_pat c) s = (s', inr admins) →
   fetch_admin_details A c s = (s', inr {[scope_name c := admins]}) ∧
   files (fst (write_csv_with_admins (scope_name c) filename [row]
                 {[scope_name c := admins]} st)) !! filename =
     Some [(map VStr (keys row) ++ [VStr "Admins"])%list;
           (values row ++ [VStr (PyStr.join ", " admins)])%list]).
Proof.
  intros Hi Hkey. split.
  - destruct data as [|first rest]; [discriminate |].
    rewrite write_csv_rows. cbn [fst]. unfold set_files; cbn [files].
    eexists _, (data_row (scope_name c) admin_details row).
    split; [apply lookup_insert_eq |]. split.
    + change (map (data_row (scope_name c) admin_details) (first :: rest) !! i
              = Some (data_row (scope_name c) admin_details row)).
      rewrite lookup_map, Hi. reflexivity.
    + rewrite data_row_last, (dict_get_absent _ _ _ Hkey), admins_get_name. reflexivity.
  - intros Hs Ha. split; [by apply fetch_admin_details_repository |].
    rewrite write_csv_rows. cbn [fst]. unfold set_files; cbn [files].
    rewrite lookup_insert_eq. cbn [map]. unfold data_row.
    rewrite (dict_get_absent _ _ _ Hkey), admins_get_name, lookup_singleton_eq.
    reflexivity.
Qed.

(** ** The admin map in organization and enterprise scope *)

Lemma admins_get_singleton_ne (n : name) admins v :
  v ≠ val_of_name n → admins_get {[n := admins]} v = [].
Proof.
  intros Hne. unfold admins_get.
  destruct (name_of_val v) as [k|] eqn:Hk; [| reflexivity].
  rewrite lookup_singleton_ne; [reflexivity |].
  intros ->. apply Hne. destruct v, k; cbn in Hk |- *; congruence.
Qed.

(** C10. In organization and enterprise scope the admin lookup is made once,
    for [scope_name], and the map has that one key; so a record whose
    [repository] value differs from [scope_name] gets an empty Admins
    cell. *)
Theorem admin_map_is_scope_name_only A c st st' admin_details :
  PyStr.mem (report_scope c) ["organization"; "enterprise"] = true →
  fetch_admin_details A c st = (st', inr admin_details) →
  (∃ admins,
      get_repo_admins A (scope_name c) (api_endpoint c) (github_pat c) st
        = (st', inr admins) ∧
      admin_details = {[scope_name c := admins]} ∧
      calls st' = (calls st ++ [requests_get_call])%list) ∧
  (∀ row,
      dict_get row "repository" (val_of_name (scope_name c)) ≠ val_of_name (scope_name c) →
      last (data_row (scope_name c) admin_details row) = Some (VStr "")).
Proof.
  intros Hscope Hfetch.
  assert (Hrepo : String.eqb (report_scope c) "repository" = false).
  { unfold PyStr.mem in Hscope. cbn [existsb] in Hscope.
    destruct (String.eqb_spec (report_scope c) "repository") as [E|]; [| reflexivity].
    rewrite E in Hscope. discriminate. }
  unfold fetch_admin_details in Hfetch. rewrite Hrepo, Hscope in Hfetch.
  cbn [for_fold] in Hfetch. unfold bind, ret in Hfetch.
  destruct (get_repo_admins A (scope_name c) (api_endpoint c) (github_pat c) st)
    as [s1 [e|admins]] eqn:Hadm; [discriminate |].
  injection Hfetch as <- <-.
  assert (Hd : <[scope_name c := admins]> (∅ : gmap name (list string))
               = {[scope_name c := admins]}) by apply insert_empty.
  rewrite Hd. split.
  - exists admins. split_and!; [reflexivity | reflexivity |].
    apply get_repo_admins_files in Hadm. subst s1. reflexivity.
  - intros row Hne. rewrite data_row_last, admins_get_singleton_ne by assumption.
    reflexivity.
Qed.

(** ** Resolution of the feature list *)

Lemma list_remove_length x l : (length (list_remove x l) ≤ length l)%nat.
Proof.
  induction l as [|y l IH]; cbn; [lia |].
  destruct (String.eqb y x); cbn; lia.
Qed.

(** With as much fuel as the list is long past the index, the loop runs to
    the end of the iteration: its result is the one of [loop_run]. It never
    raises and touches only the standard output. *)
Lemma drop_invalid_loop_run fuel i features st :
  (length features - i ≤ fuel)%nat →
  ∃ final out,
    loop_run i features final out ∧
    drop_invalid fuel i features st =
      (State (files st) (stdout st ++ out) (calls st), inr final).
Proof.
  revert i features st. induction fuel as [|fuel IH]; intros i features st Hfuel.
  - exists features, []. split.
    + apply loop_stop. apply lookup_ge_None. lia.
    + cbn. unfold ret. rewrite app_nil_r. destruct st; reflexivity.
  - cbn [drop_invalid]. destruct (features !! i) as [f|] eqn:Hf.
    + assert (i < length features)%nat by (eapply lookup_lt_Some; eassumption).
      destruct (PyStr.mem f FEATURES) eqn:Hmem; cbn [negb].
      * destruct (IH (S i) features st) as (final & out & Hrun & Heq); [lia |].
        exists final, out. split; [| exact Heq]. eapply loop_keep; eassumption.
      * pose proof (list_remove_length f features).
        destruct (IH (S i) (list_remove f features) (add_stdout (invalid_feature f) st))
          as (final & out & Hrun & Heq); [lia |].
        exists final, (invalid_feature f :: out). split.
        -- eapply loop_drop; eassumption.
        -- unfold bind, print. rewrite Heq. cbn [files stdout calls add_stdout].
           rewrite <- app_assoc. reflexivity.
    + exists features, []. split; [by apply loop_stop |].
      unfold ret. rewrite app_nil_r. destruct st; reflexivity.
Qed.

Lemma resolve_features_total requested st :
  ∃ features out,
    resolve_features requested st =
      (State (files st) (stdout st ++ out) (calls st), inr features).
Proof.
  unfold resolve_features.
  assert (Hret : ∃ features out, ret FEATURES st =
            (State (files st) (stdout st ++ out) (calls st), inr features)).
  { exists FEATURES, []. unfold ret. rewrite app_nil_r. destruct st; reflexivity. }
  destruct requested as [r|]; [| exact Hret].
  destruct (String.eqb r "all"); [exact Hret |].
  destruct (drop_invalid_loop_run (length (PyStr.split_comma r)) 0
              (PyStr.split_comma r) st) as (final & out & _ & Heq); [lia |].
  eauto.
Qed.

(** C3. [FEATURES=bogus1,bogus2] resolves to [["bogus2"]]: removing
    [bogus1] while the loop is at index 0 moves [bogus2] to index 0, and the
    next turn reads index 1, past the end. The name kept is not a valid
    feature. [FEATURES=secretscanning,bogus] resolves to
    [["secretscanning"]]. *)
Theorem features_two_invalid_names :
  snd (resolve_features (Some "bogus1,bogus2") initial) = inr ["bogus2"] ∧
  loop_run 0 ["bogus1"; "bogus2"] ["bogus2"] [invalid_feature "bogus1"] ∧
  PyStr.mem "bogus2" FEATURES = false ∧
  snd (resolve_features (Some "secretscanning,bogus") initial) = inr ["secretscanning"].
Proof.
  split_and!; try reflexivity.
  eapply loop_drop; [reflexivity | reflexivity |]. cbn.
  apply loop_stop. reflexivity.
Qed.

(** ** Invalid scope *)

Lemma valid_scope_false s :
  valid_scope s = false →
  String.eqb s "enterprise" = false ∧ String.eqb s "organization" = false ∧
  String.eqb s "repository" = false.
Proof.
  unfold valid_scope, PyStr.mem. cbn [existsb].
  destruct (String.eqb s "enterprise"), (String.eqb s "organization"),
    (String.eqb s "repository"); cbn; intros; try discriminate; auto.
Qed.

Lemma main_invalid_scope A c st :
  valid_scope (report_scope c) = false →
  main A c st =
    (add_stdout "Starting GitHub security report..." st,
     inl (SystemExit "Invalid report scope")).
Proof.
  intros Hv. apply valid_scope_false in Hv as (He & Ho & Hr).
  unfold main, bind, print, fetch_admin_details, run_scope.
  rewrite He, Ho, Hr. unfold PyStr.mem. cbn [existsb]. rewrite Ho, He. reflexivity.
Qed.

(** C8. When the report scope is none of [enterprise], [organization] and
    [repository], the script ends in [exit("Invalid report scope")]: the
    message goes to standard error, the exit status is not zero, no call
    has been made and no file has been written. *)
Theorem invalid_scope_exits A environ st :
  valid_scope (getenv environ "GITHUB_REPORT_SCOPE" "repository") = false →
  let r := script A environ st in
  snd r = inl (SystemExit "Invalid report scope") ∧
  exit_message (snd r) = Some "Invalid report scope" ∧
  exit_status (snd r) ≠ 0%Z ∧
  files (fst r) = files st ∧
  calls (fst r) = calls st.
Proof.
  intros Hv r.
  destruct (resolve_features_total (environ !! "FEATURES") st) as (fs & out & Hres).
  assert (Hr : r =
    (add_stdout "Starting GitHub security report..."
       (State (files st) (stdout st ++ out) (calls st)),
     inl (SystemExit "Invalid report scope"))).
  { subst r. unfold script, read_config, bind. rewrite Hres. unfold ret.
    apply main_invalid_scope. exact Hv. }
  rewrite Hr. cbn. split_and!; done.
Qed.

(** ** Feature blocks *)

Lemma main_continues A c st0 d pre post s :
  reaches A c st0 d pre s →
  scope_blocks A c = Some (pre ++ post)%list →
  main A c st0 = for_each post (run_block c d) s.
Proof.
  intros (s0 & Hadm & Hpre) Hbs.
  unfold main, bind, print. rewrite Hadm, run_scope_blocks, Hbs, for_each_app, Hpre.
  reflexivity.
Qed.

Local Ltac fetch_raised := intros e [=]; eauto.
Local Ltac fetch_made cs :=
  exists cs; eexists;
  (split; [cbn [calls files stdout]; rewrite <- ?app_assoc; reflexivity |]);
  (split_and!; [done | by repeat constructor | try fetch_raised]).

Lemma perform_fetch_of {f} k (r : result (list record)) :
  feature_of_call k = Some f → fetch_of f (perform k r).
Proof.
  intros Hk s. unfold perform, add_call.
  destruct r as [text|data]; fetch_made [k].
Qed.

Lemma enterprise_cs_fetch_of A c : fetch_of "codescanning" (enterprise_cs_fetch A c).
Proof.
  intros s. unfold enterprise_cs_fetch, bind, perform, add_call.
  destruct (get_enterprise_version A (api_endpoint c)) as [text|version];
    [fetch_made [get_enterprise_version_call] |].
  destruct (_ || _).
  - destruct (get_repo_report A (url c) (github_pat c)) as [text|repo_list];
      [fetch_made [get_enterprise_version_call; get_repo_report_call] |].
    destruct (list_enterprise_server_cs_alerts _ _ _ _) as [text|data];
      fetch_made [get_enterprise_version_call; get_repo_report_call;
                  list_enterprise_server_cs_alerts_call].
  - destruct (list_enterprise_cloud_cs_alerts _ _ _ _) as [text|data];
      fetch_made [get_enterprise_version_call; list_enterprise_cloud_cs_alerts_call].
Qed.

(** The blocks of a scope: their features are those of [scope_order], in
    that order, their files differ, their fetches are fetches for their
    feature, and the handler goes by the feature. *)
Lemma scope_blocks_table A c bs :
  scope_blocks A c = Some bs →
  map b_feature bs = scope_order (report_scope c) ∧
  NoDup (map b_file bs) ∧
  Forall (fun b => fetch_of (b_feature b) (b_fetch b)) bs ∧
  Forall (fun b => b_except b =
            if String.eqb (b_feature b) "secretscanning" then ss_handler
            else if String.eqb (b_feature b) "dependabot" then dependabot_handler
            else None) bs.
Proof.
  unfold scope_blocks, scope_order.
  destruct (String.eqb (report_scope c) "enterprise");
    [| destruct (String.eqb (report_scope c) "organization");
       [| destruct (String.eqb (report_scope c) "repository"); [| discriminate]]];
    intros Hbs; apply (inj Some) in Hbs; subst bs; (split_and!;
      [ reflexivity
      | apply (bool_decide_unpack _); vm_compute; exact I
      | repeat constructor; cbn [b_feature b_fetch];
          first [ by apply perform_fetch_of | apply enterprise_cs_fetch_of ]
      | repeat constructor ]).
Qed.

Lemma write_csv_effect scope_name filename data admin_details s :
  ∃ rows r,
    write_csv_with_admins scope_name filename data admin_details s =
      (State (<[filename := rows]> (files s)) (stdout s) (calls s), r).
Proof.
  destruct data as [|first rest].
  - rewrite write_csv_empty. eauto.
  - rewrite write_csv_rows. eauto.
Qed.

(** The except clause prints or raises again; it writes no file and makes
    no call. *)
Lemma skip_if_disabled_effect phrases notice e s :
  ∃ out r,
    skip_if_disabled phrases notice e s =
      (State (files s) (stdout s ++ out) (calls s), r).
Proof.
  unfold skip_if_disabled. destruct (PyStr.any_in _ _).
  - exists [notice; str e]. eexists. unfold bind, print, add_stdout; cbn.
    rewrite <- app_assoc. reflexivity.
  - exists []. eexists. unfold raise. rewrite app_nil_r. destruct s; reflexivity.
Qed.

Lemma run_block_effect c d b s s' r :
  fetch_of (b_feature b) (b_fetch b) →
  run_block c d b s = (s', r) →
  (∀ f, f ≠ b_file b → files s' !! f = files s !! f) ∧
  ∃ cs,
    calls s' = (calls s ++ cs)%list ∧
    Forall (fun k => feature_of_call k = Some (b_feature b)) cs ∧
    if PyStr.mem (b_feature b) (features c)
    then cs ≠ []
    else cs = [] ∧ s' = s ∧ r = inr tt.
Proof.
  intros Hfetch. unfold run_block, when.
  destruct (PyStr.mem (b_feature b) (features c)).
  2:{ intros [= <- <-]. split; [done |]. exists []. rewrite app_nil_r. done. }
  destruct (Hfetch s) as (cs & r1 & Hf & Hne & Hcs & _).
  assert (Hbody : ∃ fs' r',
    (data <- b_fetch b ;; write_csv_with_admins (scope_name c) (b_file b) data d) s =
      (State fs' (stdout s) (calls s ++ cs), r') ∧
    ∀ f, f ≠ b_file b → fs' !! f = files s !! f).
  { unfold bind. rewrite Hf. destruct r1 as [e|data]; [eauto |].
    destruct (write_csv_effect (scope_name c) (b_file b) data d
                (State (files s) (stdout s) (calls s ++ cs))) as (rows & r' & ->).
    cbn [files stdout calls]. eexists _, _. split; [reflexivity |].
    intros f Hf'. by apply lookup_insert_ne. }
  destruct Hbody as (fs' & r' & Hbody & Hfs). cbv zeta.
  destruct (b_except b) as [[phrases notice]|].
  - unfold try_except. rewrite Hbody. destruct r' as [e|[]].
    + destruct (is_Exception e).
      * destruct (skip_if_disabled_effect phrases notice e
                    (State fs' (stdout s) (calls s ++ cs))) as (out & r2 & ->).
        intros [= <- <-]. cbn [files calls]. eauto.
      * intros [= <- <-]. cbn [files calls]. eauto.
    + intros [= <- <-]. cbn [files calls]. eauto.
  - rewrite Hbody. intros [= <- <-]. cbn [files calls]. eauto.
Qed.

Lemma run_blocks_effect c d bs s s' r :
  Forall (fun b => fetch_of (b_feature b) (b_fetch b)) bs →
  for_each bs (run_block c d) s = (s', r) →
  ∀ f, f ∉ map b_file bs → files s' !! f = files s !! f.
Proof.
  intros Hbs. revert s. induction Hbs as [|b bs Hb Hbs IH]; intros s.
  - intros [= <- <-]. done.
  - cbn [for_each map]. unfold bind.
    destruct (run_block c d b s) as [s1 r1] eqn:Hb1.
    apply run_block_effect in Hb1 as [Hfiles _]; [| exact Hb].
    intros Hrun f Hf. apply not_elem_of_cons in Hf as [Hf1 Hf2].
    destruct r1 as [e|[]].
    + injection Hrun as <- <-. by apply Hfiles.
    + rewrite (IH _ Hrun f Hf2). by apply Hfiles.
Qed.

Lemma fetch_admin_details_effect A c s s' r :
  fetch_admin_details A c s = (s', r) →
  files s' = files s ∧ stdout s' = stdout s ∧
  omap feature_of_call (calls s') = omap feature_of_call (calls s).
Proof.
  assert (Hadm : ∀ (k : list string → M (gmap name (list string))) repo s s' r,
    (∀ a st, k a st = (st, inr (<[repo := a]> ∅))) →
    (admins <- get_repo_admins A repo (api_endpoint c) (github_pat c) ;; k admins) s
      = (s', r) →
    s' = add_call requests_get_call s).
  { intros k repo t t' r0 Hk. unfold bind.
    destruct (get_repo_admins A repo (api_endpoint c) (github_pat c) t)
      as [t1 [e|admins]] eqn:Hg; apply get_repo_admins_files in Hg; subst t1.
    - by intros [= <- _].
    - rewrite Hk. by intros [= <- _]. }
  assert (Hcall : ∀ t, t = add_call requests_get_call s →
    files t = files s ∧ stdout t = stdout s ∧
    omap feature_of_call (calls t) = omap feature_of_call (calls s)).
  { intros t ->. split_and!; [done | done |]. cbn [calls add_call].
    rewrite omap_app. cbn. by rewrite app_nil_r. }
  unfold fetch_admin_details.
  destruct (String.eqb (report_scope c) "repository").
  { intros H. apply Hcall. eapply Hadm; [| exact H]. reflexivity. }
  destruct (PyStr.mem (report_scope c) ["organization"; "enterprise"]).
  { cbn [for_fold]. intros H. apply Hcall.
    unfold bind in H. 
    destruct (get_repo_admins A (scope_name c) (api_endpoint c) (github_pat c) s)
      as [t1 [e|admins]] eqn:Hg; apply get_repo_admins_files in Hg; subst t1.
    - by injection H as <- _.
    - unfold ret in H. by injection H as <- _. }
  intros [= <- _]. done.
Qed.

(** A requested block whose fetch raises: the handler, when the block has
    one and a phrase of its list occurs in the lowercased text, prints the
    notice and the text and the block ends normally; in every other case
    the exception leaves the block. *)
Lemma fetch_raises_outcome c d b s s' e :
  fetch_of (b_feature b) (b_fetch b) →
  PyStr.mem (b_feature b) (features c) = true →
  b_fetch b s = (s', inl e) →
  files s' = files s ∧
  run_block c d b s =
    match b_except b with
    | Some (phrases, notice) =>
        if PyStr.any_in phrases (PyStr.lower (str e))
        then (add_stdout (str e) (add_stdout notice s'), inr tt)
        else (s', inl e)
    | None => (s', inl e)
    end.
Proof.
  intros Hfetch Hreq Hraise.
  destruct (Hfetch s) as (cs & r & Hf & _ & _ & Herr).
  rewrite Hraise in Hf. injection Hf as -> <-.
  destruct (Herr e eq_refl) as [text ->].
  split; [reflexivity |].
  unfold run_block, when. rewrite Hreq. cbv zeta.
  destruct (b_except b) as [[phrases notice]|].
  - unfold try_except, bind. rewrite Hraise. cbn [is_Exception].
    unfold skip_if_disabled. destruct (PyStr.any_in _ _); reflexivity.
  - unfold bind. rewrite Hraise. reflexivity.
Qed.

Lemma any_in_app l1 l2 s :
  PyStr.any_in (l1 ++ l2) s = PyStr.any_in l1 s || PyStr.any_in l2 s.
Proof. apply existsb_app. Qed.

(** What is known of the block [b] at its place in the table. *)
Lemma scope_blocks_at A c pre b post :
  scope_blocks A c = Some (pre ++ b :: post)%list →
  fetch_of (b_feature b) (b_fetch b) ∧
  Forall (fun b => fetch_of (b_feature b) (b_fetch b)) pre ∧
  (∀ b', b' ∈ b :: post → b_file b' ∉ map b_file pre) ∧
  b_except b =
    if String.eqb (b_feature b) "secretscanning" then ss_handler
    else if String.eqb (b_feature b) "dependabot" then dependabot_handler
    else None.
Proof.
  intros Hbs. apply scope_blocks_table in Hbs as (_ & Hnd & Hfetch & Hexc).
  apply Forall_app in Hfetch as [Hpre Hfetch]. apply Forall_cons in Hfetch as [Hb _].
  apply Forall_app in Hexc as [_ Hexc]. apply Forall_cons in Hexc as [Hexc _].
  split_and!; [exact Hb | exact Hpre | | exact Hexc].
  intros b' Hb' Hin. rewrite map_app in Hnd. apply NoDup_app in Hnd as (_ & Hdis & _).
  apply (Hdis _ Hin). change (b_file b' ∈ map b_file (b :: post)).
  apply list_elem_of_In, in_map, list_elem_of_In, Hb'.
Qed.

(** The files of the blocks not yet run are as they were when the script
    started. *)
Lemma reaches_files A c st0 d pre s f :
  Forall (fun b => fetch_of (b_feature b) (b_fetch b)) pre →
  reaches A c st0 d pre s →
  f ∉ map b_file pre →
  files s !! f = files st0 !! f.
Proof.
  intros Hpre (s0 & Hadm & Hrun) Hf.
  rewrite (run_blocks_effect _ _ _ _ _ _ Hpre Hrun f Hf).
  apply fetch_admin_details_effect in Hadm as (-> & _). reflexivity.
Qed.

(** C6. When the run has reached a requested feature block and its fetch
    raises an exception whose lowercased text contains none of the known
    disabled phrases, the run ends there with that exception: the files are
    those left by the earlier blocks, and the file of this block and the
    files of the later blocks are as they were before the run. *)
Theorem other_exception_terminates A c st0 d pre b post s1 s1' e :
  scope_blocks A c = Some (pre ++ b :: post)%list →
  reaches A c st0 d pre s1 →
  PyStr.mem (b_feature b) (features c) = true →
  b_fetch b s1 = (s1', inl e) →
  PyStr.any_in known_disabled_strings (PyStr.lower (str e)) = false →
  main A c st0 = (s1', inl e) ∧
  files s1' = files s1 ∧
  ∀ b', b' ∈ b :: post → files s1' !! b_file b' = files st0 !! b_file b'.
Proof.
  intros Hbs Hreach Hreq Hraise Hno.
  destruct (scope_blocks_at _ _ _ _ _ Hbs) as (Hb & Hpre & Hfiles & Hexc).
  destruct (fetch_raises_outcome c d b s1 s1' e Hb Hreq Hraise) as [Hsame Hblock].
  unfold known_disabled_strings in Hno. rewrite any_in_app in Hno.
  apply orb_false_elim in Hno as [Hss Hdep].
  split_and!.
  - rewrite (main_continues _ _ _ _ _ _ _ Hreach Hbs). cbn [for_each]. unfold bind.
    rewrite Hblock, Hexc. unfold ss_handler, dependabot_handler.
    destruct (String.eqb (b_feature b) "secretscanning");
      [cbv beta iota; by rewrite Hss |].
    destruct (String.eqb (b_feature b) "dependabot");
      [cbv beta iota; by rewrite Hdep | done].
  - exact Hsame.
  - intros b' Hb'. rewrite Hsame. eapply reaches_files; eauto.
Qed.

(** C1, as amended. When the run has reached a requested feature block and
    its fetch raises: if the block is a secret scanning or a Dependabot
    block and the lowercased text contains a phrase of the list of that
    same feature, the notice and the text are printed, no file is written
    and the run goes on with the blocks that follow; if the block is a code
    scanning block, or the text contains no phrase of the list of the
    feature, the run ends there with the exception. *)
Theorem disabled_feature_is_skipped A c st0 d pre b post s1 s1' e :
  scope_blocks A c = Some (pre ++ b :: post)%list →
  reaches A c st0 d pre s1 →
  PyStr.mem (b_feature b) (features c) = true →
  b_fetch b s1 = (s1', inl e) →
  (b_feature b = "secretscanning" ∧
     PyStr.any_in secret_scanning_disabled_strings (PyStr.lower (str e)) = true
   ∨ b_feature b = "dependabot" ∧
     PyStr.any_in dependabot_disabled_strings (PyStr.lower (str e)) = true →
   ∃ phrases notice,
     b_except b = Some (phrases, notice) ∧
     let s2 := add_stdout (str e) (add_stdout notice s1') in
     reaches A c st0 d (pre ++ [b]) s2 ∧
     main A c st0 = for_each post (run_block c d) s2 ∧
     files s2 = files s1 ∧
     files s2 !! b_file b = files st0 !! b_file b) ∧
  (b_feature b = "codescanning"
   ∨ b_feature b = "secretscanning" ∧
     PyStr.any_in secret_scanning_disabled_strings (PyStr.lower (str e)) = false
   ∨ b_feature b = "dependabot" ∧
     PyStr.any_in dependabot_disabled_strings (PyStr.lower (str e)) = false →
   main A c st0 = (s1', inl e)).
Proof.
  intros Hbs Hreach Hreq Hraise.
  destruct (scope_blocks_at _ _ _ _ _ Hbs) as (Hb & Hpre & Hfiles & Hexc).
  destruct (fetch_raises_outcome c d b s1 s1' e Hb Hreq Hraise) as [Hsame Hblock].
  pose proof (main_continues _ _ _ _ _ _ _ Hreach Hbs) as Hmain.
  cbn [for_each] in Hmain. unfold bind in Hmain. rewrite Hblock in Hmain.
  split.
  - intros Hown.
    assert (Hh : ∃ phrases notice, b_except b = Some (phrases, notice) ∧
                 PyStr.any_in phrases (PyStr.lower (str e)) = true).
    { rewrite Hexc. destruct Hown as [[-> Hm] | [-> Hm]]; cbn; eauto. }
    destruct Hh as (phrases & notice & Hex & Hm).
    exists phrases, notice. split; [exact Hex |]. cbv zeta.
    rewrite Hex in Hmain, Hblock. cbv beta iota in Hmain, Hblock.
    rewrite Hm in Hmain, Hblock. split_and!.
    + destruct Hreach as (s0 & Hadm & Hrun). exists s0. split; [exact Hadm |].
      rewrite for_each_app, Hrun. cbn [for_each]. unfold bind. rewrite Hblock.
      reflexivity.
    + exact Hmain.
    + exact Hsame.
    + cbn [files add_stdout]. rewrite Hsame.
      eapply reaches_files; eauto. apply Hfiles. left.
  - intros Hnot. rewrite Hmain, Hexc.
    unfold ss_handler, dependabot_handler.
    destruct Hnot as [-> | [[-> Hm] | [-> Hm]]];
      cbn [String.eqb Ascii.eqb Bool.eqb]; cbv beta iota; [done | |]; by rewrite Hm.
Qed.

(** C9. On the empty list [write_csv_with_admins] raises [IndexError] with
    the file opened and left empty. So when the run has reached a requested
    feature block whose fetch returns no alert, the run ends there with
    [IndexError] (its text matches no disabled phrase) and the file of the
    block holds no row, not even a header. *)
Theorem empty_alert_list_raises A c st0 d pre b post s1 s1' sn filename
    admin_details st :
  scope_blocks A c = Some (pre ++ b :: post)%list →
  reaches A c st0 d pre s1 →
  PyStr.mem (b_feature b) (features c) = true →
  b_fetch b s1 = (s1', inr []) →
  write_csv_with_admins sn filename [] admin_details st =
    (set_files (fun fs => <[filename := []]> fs) st, inl IndexError) ∧
  main A c st0 =
    (set_files (fun fs => <[b_file b := []]> fs) s1', inl IndexError) ∧
  files (fst (main A c st0)) !! b_file b = Some [].
Proof.
  intros Hbs Hreach Hreq Hfetch.
  destruct (scope_blocks_at _ _ _ _ _ Hbs) as (_ & _ & _ & Hexc).
  assert (Hmain : main A c st0 =
    (set_files (fun fs => <[b_file b := []]> fs) s1', inl IndexError)).
  { rewrite (main_continues _ _ _ _ _ _ _ Hreach Hbs). cbn [for_each].
    unfold bind at 1. unfold run_block, when. rewrite Hreq. cbv zeta.
    assert (Hbody :
      (data <- b_fetch b ;; write_csv_with_admins (scope_name c) (b_file b) data d) s1
      = (set_files (fun fs => <[b_file b := []]> fs) s1', inl IndexError)).
    { unfold bind. rewrite Hfetch. apply write_csv_empty. }
    rewrite Hexc. unfold ss_handler, dependabot_handler.
    destruct (String.eqb (b_feature b) "secretscanning");
      [unfold try_except; rewrite Hbody; reflexivity |].
    destruct (String.eqb (b_feature b) "dependabot");
      [unfold try_except; rewrite Hbody; reflexivity |].
    rewrite Hbody. reflexivity. }
  split_and!; [reflexivity | exact Hmain |].
  rewrite Hmain. cbn [fst files set_files]. apply lookup_insert_eq.
Qed.

Lemma enterprise_blocks A c :
  report_scope c = "enterprise" →
  scope_blocks A c = Some [enterprise_ss A c; enterprise_cs A c; enterprise_dependabot A c].
Proof. intros H. unfold scope_blocks. rewrite H. reflexivity. Qed.

(** The Dependabot block of the enterprise branch: the calls it adds are
    calls for Dependabot, and it leaves the code scanning file alone. *)
Lemma enterprise_dependabot_effect A c d s :
  ∃ cs,
    calls (fst (run_block c d (enterprise_dependabot A c) s)) = (calls s ++ cs)%list ∧
    Forall (fun k => feature_of_call k = Some "dependabot") cs ∧
    files (fst (run_block c d (enterprise_dependabot A c) s))
      !! "enterprise_code_scanning.csv" = files s !! "enterprise_code_scanning.csv".
Proof.
  destruct (run_block c d (enterprise_dependabot A c) s) as [s' r] eqn:Hrun.
  apply run_block_effect in Hrun as (Hfiles & cs & Hcalls & Hcs & _).
  - exists cs. split_and!; [assumption | assumption |]. by apply Hfiles.
  - by apply perform_fetch_of.
Qed.

Local Ltac not_in_calls :=
  repeat split; repeat (apply not_elem_of_cons; split; [done |]); apply not_elem_of_nil.

(** The code scanning block of the enterprise branch, for any version the
    probe returns: the path taken, the calls of the rest of the run, and the
    content of [enterprise_code_scanning.csv] at the end of the run when the
    fetch of the path returns at least one alert. *)
Lemma enterprise_code_scanning_run A c st0 d s1 version :
  report_scope c = "enterprise" →
  PyStr.mem "codescanning" (features c) = true →
  reaches A c st0 d [enterprise_ss A c] s1 →
  get_enterprise_version A (api_endpoint c) = inr version →
  let s2 := add_call get_enterprise_version_call s1 in
  let write cs_list :=
    write_csv_with_admins (scope_name c) "enterprise_code_scanning.csv" cs_list d in
  let rest := run_block c d (enterprise_dependabot A c) in
  let per_repository :=
    PyStr.startswith version "3.5" || PyStr.startswith version "3.6" in
  main A c st0 =
    (if per_repository
     then
       repo_list <- perform get_repo_report_call
         (get_repo_report A (url c) (github_pat c)) ;;
       cs_list <- perform list_enterprise_server_cs_alerts_call
         (list_enterprise_server_cs_alerts A (api_endpoint c) (github_pat c) repo_list) ;;
       write cs_list ;; rest
     else
       cs_list <- perform list_enterprise_cloud_cs_alerts_call
         (list_enterprise_cloud_cs_alerts A (api_endpoint c) (github_pat c)
            (scope_name c)) ;;
       write cs_list ;; rest) s2 ∧
  (per_repository = true →
   (∃ cs,
      calls (fst (main A c st0)) =
        (calls s1 ++ get_enterprise_version_call :: get_repo_report_call :: cs)%list ∧
      list_enterprise_cloud_cs_alerts_call ∉ cs) ∧
   (∀ repo_list first others,
      get_repo_report A (url c) (github_pat c) = inr repo_list →
      list_enterprise_server_cs_alerts A (api_endpoint c) (github_pat c) repo_list
        = inr (first :: others) →
      files (fst (main A c st0)) !! "enterprise_code_scanning.csv" =
        Some ((map VStr (keys first) ++ [VStr "Admins"])%list
                :: map (data_row (scope_name c) d) (first :: others)))) ∧
  (per_repository = false →
   (∃ cs,
      calls (fst (main A c st0)) =
        (calls s1 ++ get_enterprise_version_call
           :: list_enterprise_cloud_cs_alerts_call :: cs)%list ∧
      (get_repo_report_call ∉ cs) ∧
      (list_enterprise_server_cs_alerts_call ∉ cs)) ∧
   (∀ first others,
      list_enterprise_cloud_cs_alerts A (api_endpoint c) (github_pat c) (scope_name c)
        = inr (first :: others) →
      files (fst (main A c st0)) !! "enterprise_code_scanning.csv" =
        Some ((map VStr (keys first) ++ [VStr "Admins"])%list
                :: map (data_row (scope_name c) d) (first :: others)))).
Proof.
  intros Hscope Hreq Hreach Hversion s2 write rest per_repository.
  assert (Hdep : ∀ k cs, Forall (fun k => feature_of_call k = Some "dependabot") cs →
            feature_of_call k = Some "codescanning" → k ∉ cs).
  { intros k cs Hall Hk Hin. rewrite Forall_forall in Hall.
    apply Hall in Hin. congruence. }
  assert (Heq : main A c st0 =
    (if per_repository
     then
       repo_list <- perform get_repo_report_call
         (get_repo_report A (url c) (github_pat c)) ;;
       cs_list <- perform list_enterprise_server_cs_alerts_call
         (list_enterprise_server_cs_alerts A (api_endpoint c) (github_pat c) repo_list) ;;
       write cs_list ;; rest
     else
       cs_list <- perform list_enterprise_cloud_cs_alerts_call
         (list_enterprise_cloud_cs_alerts A (api_endpoint c) (github_pat c)
            (scope_name c)) ;;
       write cs_list ;; rest) s2).
  { rewrite (main_continues A c st0 d [enterprise_ss A c]
               [enterprise_cs A c; enterprise_dependabot A c] s1 Hreach
               (enterprise_blocks A c Hscope)).
    cbn [for_each]. unfold bind at 1. unfold run_block at 1, when.
    cbn [b_feature b_except b_fetch b_file enterprise_cs]. rewrite Hreq. cbv zeta.
    unfold enterprise_cs_fetch. unfold bind at 1. unfold bind at 1.
    unfold perform at 1. rewrite Hversion. fold per_repository.
    subst s2 write rest. destruct per_repository; unfold bind.
    + destruct (perform get_repo_report_call _ _) as [t1 [e1|repo_list]]; [done |].
      destruct (perform list_enterprise_server_cs_alerts_call _ t1)
        as [t2 [e2|cs_list]]; [done |].
      destruct (write_csv_with_admins _ _ cs_list d t2) as [t3 [e3|[]]]; [done |].
      destruct (run_block c d _ t3) as [t4 [e4|[]]]; done.
    + destruct (perform list_enterprise_cloud_cs_alerts_call _ _)
        as [t2 [e2|cs_list]]; [done |].
      destruct (write_csv_with_admins _ _ cs_list d t2) as [t3 [e3|[]]]; [done |].
      destruct (run_block c d _ t3) as [t4 [e4|[]]]; done. }
  split; [exact Heq |]. rewrite Heq. clear Heq.
  split; intros ->; unfold bind, perform.
  - destruct (get_repo_report A (url c) (github_pat c)) as [text|repo_list].
    { split; [| intros ? ? ? [=]]. exists []. split; [| not_in_calls].
      cbn. by rewrite <- app_assoc. }
    destruct (list_enterprise_server_cs_alerts _ _ _ _) as [text|cs_list] eqn:Hserver.
    { split.
      - exists [list_enterprise_server_cs_alerts_call]. split; [| not_in_calls].
        cbn. by rewrite <- !app_assoc.
      - intros ? ? ? [= <-]. congruence. }
    subst write. cbv beta. destruct cs_list as [|first others].
    { rewrite write_csv_empty. split.
      - exists [list_enterprise_server_cs_alerts_call]. split; [| not_in_calls].
        cbn. by rewrite <- !app_assoc.
      - intros ? ? ? [= <-]. congruence. }
    rewrite write_csv_rows.
    match goal with |- context [rest ?s] =>
      destruct (enterprise_dependabot_effect A c d s) as (cs & Hcalls & Hall & Hfile);
      fold rest in Hcalls, Hfile; destruct (rest s) as [t [e|[]]] end;
      cbn [fst] in *;
      (split;
       [ rewrite Hcalls; exists (list_enterprise_server_cs_alerts_call :: cs);
         (split; [cbn; by rewrite <- !app_assoc |]);
         apply not_elem_of_cons; (split; [done | by apply Hdep])
       | intros ? ? ? [= <-] Hs; rewrite Hserver in Hs; injection Hs as <- <-;
         etransitivity; [exact Hfile |];
         cbn [files set_files add_call]; apply lookup_insert_eq ]).
  - destruct (list_enterprise_cloud_cs_alerts _ _ _ _) as [text|cs_list].
    { split; [| intros ? ? [=]]. exists []. split; [| not_in_calls].
      cbn. by rewrite <- !app_assoc. }
    subst write. cbv beta. destruct cs_list as [|first others].
    { rewrite write_csv_empty. split; [| intros ? ? [=]].
      exists []. split; [| not_in_calls]. cbn. by rewrite <- !app_assoc. }
    rewrite write_csv_rows.
    match goal with |- context [rest ?s] =>
      destruct (enterprise_dependabot_effect A c d s) as (cs & Hcalls & Hall & Hfile);
      fold rest in Hcalls, Hfile; destruct (rest s) as [t [e|[]]] end;
      cbn [fst] in *;
      (split;
       [ rewrite Hcalls; exists cs; (split; [cbn; by rewrite <- !app_assoc |]);
         split; by apply Hdep
       | intros ? ? [= <- <-]; etransitivity; [exact Hfile |];
         cbn [files set_files add_call]; apply lookup_insert_eq ]).
Qed.

(** C4. Enterprise scope with code scanning requested, the run having got
    past the secret scanning block: after the version probe, a server
    ["3.6.1"] goes on with [get_repo_report] and
    [list_enterprise_server_cs_alerts] and never calls the enterprise-wide
    endpoint; a server ["3.9.0"] goes on with
    [list_enterprise_cloud_cs_alerts] and calls neither of the other two.
    Both hand the alerts to the writer of [enterprise_code_scanning.csv]:
    when the fetch returns alerts, that file holds, at the end of the run,
    the header and one row per alert. *)
Theorem enterprise_code_scanning_by_version A c st0 d s1 version :
  report_scope c = "enterprise" →
  PyStr.mem "codescanning" (features c) = true →
  reaches A c st0 d [enterprise_ss A c] s1 →
  get_enterprise_version A (api_endpoint c) = inr version →
  let s2 := add_call get_enterprise_version_call s1 in
  let write cs_list :=
    write_csv_with_admins (scope_name c) "enterprise_code_scanning.csv" cs_list d in
  let rest := run_block c d (enterprise_dependabot A c) in
  (version = "3.6.1" →
   main A c st0 =
     (repo_list <- perform get_repo_report_call
        (get_repo_report A (url c) (github_pat c)) ;;
      cs_list <- perform list_enterprise_server_cs_alerts_call
        (list_enterprise_server_cs_alerts A (api_endpoint c) (github_pat c) repo_list) ;;
      write cs_list ;; rest) s2 ∧
   (∃ cs,
      calls (fst (main A c st0)) =
        (calls s1 ++ get_enterprise_version_call :: get_repo_report_call :: cs)%list ∧
      list_enterprise_cloud_cs_alerts_call ∉ cs) ∧
   (∀ repo_list first others,
      get_repo_report A (url c) (github_pat c) = inr repo_list →
      list_enterprise_server_cs_alerts A (api_endpoint c) (github_pat c) repo_list
        = inr (first :: others) →
      files (fst (main A c st0)) !! "enterprise_code_scanning.csv" =
        Some ((map VStr (keys first) ++ [VStr "Admins"])%list
                :: map (data_row (scope_name c) d) (first :: others)))) ∧
  (version = "3.9.0" →
   main A c st0 =
     (cs_list <- perform list_enterprise_cloud_cs_alerts_call
        (list_enterprise_cloud_cs_alerts A (api_endpoint c) (github_pat c)
           (scope_name c)) ;;
      write cs_list ;; rest) s2 ∧
   (∃ cs,
      calls (fst (main A c st0)) =
        (calls s1 ++ get_enterprise_version_call
           :: list_enterprise_cloud_cs_alerts_call :: cs)%list ∧
      (get_repo_report_call ∉ cs) ∧
      (list_enterprise_server_cs_alerts_call ∉ cs)) ∧
   (∀ first others,
      list_enterprise_cloud_cs_alerts A (api_endpoint c) (github_pat c) (scope_name c)
        = inr (first :: others) →
      files (fst (main A c st0)) !! "enterprise_code_scanning.csv" =
        Some ((map VStr (keys first) ++ [VStr "Admins"])%list
                :: map (data_row (scope_name c) d) (first :: others)))).
Proof.
  intros Hscope Hreq Hreach Hversion s2 write rest.
  split; intros ->.
  - destruct (enterprise_code_scanning_run A c st0 d s1 "3.6.1"
                Hscope Hreq Hreach Hversion) as (Hmain & Hserver & _).
    destruct (Hserver eq_refl) as [Hcalls Hfile].
    split_and!; [exact Hmain | exact Hcalls | exact Hfile].
  - destruct (enterprise_code_scanning_run A c st0 d s1 "3.9.0"
                Hscope Hreq Hreach Hversion) as (Hmain & _ & Hcloud).
    destruct (Hcloud eq_refl) as [Hcalls Hfile].
    split_and!; [exact Hmain | exact Hcalls | exact Hfile].
Qed.

(** ** The order of the fetches *)

Lemma omap_feature_replicate f cs :
  Forall (fun k => feature_of_call k = Some f) cs →
  omap feature_of_call cs = replicate (length cs) f.
Proof.
  induction 1 as [|k cs Hk _ IH]; [reflexivity |].
  cbn. rewrite Hk. cbn. f_equal. exact IH.
Qed.

Lemma collapse_run f n tr :
  head tr ≠ Some f → collapse (replicate (S n) f ++ tr) = f :: collapse tr.
Proof.
  intros Hhd. induction n as [|n IH].
  - cbn [replicate app collapse]. destruct tr as [|y tr]; [reflexivity |].
    destruct (String.eqb_spec f y) as [->|]; [by destruct Hhd | reflexivity].
  - change (replicate (S (S n)) f ++ tr)%list with (f :: (replicate (S n) f ++ tr))%list.
    rewrite <- IH. cbn [replicate app collapse]. rewrite String.eqb_refl. reflexivity.
Qed.

Lemma runs_head tr fs : runs tr fs → head tr = head fs.
Proof. destruct 1; reflexivity. Qed.

Lemma runs_collapse tr fs : runs tr fs → NoDup fs → collapse tr = fs.
Proof.
  induction 1 as [|f n tr fs Hruns IH]; intros Hnd; [reflexivity |].
  apply NoDup_cons in Hnd as [Hf Hnd].
  rewrite collapse_run; [by rewrite IH |].
  rewrite (runs_head _ _ Hruns). destruct fs as [|g fs]; [done |].
  cbn. intros [= ->]. apply Hf. left.
Qed.

Lemma run_blocks_fetched c d bs s s' r :
  Forall (fun b => fetch_of (b_feature b) (b_fetch b)) bs →
  for_each bs (run_block c d) s = (s', r) →
  ∃ tr fs,
    omap feature_of_call (calls s') = (omap feature_of_call (calls s) ++ tr)%list ∧
    runs tr fs ∧
    fs `prefix_of` List.filter (requested c) (map b_feature bs) ∧
    (r = inr tt → fs = List.filter (requested c) (map b_feature bs)).
Proof.
  intros Hbs. revert s. induction Hbs as [|b bs Hb Hbs IH]; intros s.
  - intros [= <- <-]. exists [], []. rewrite app_nil_r.
    split_and!; [done | constructor | done | done].
  - cbn [for_each map List.filter]. unfold bind.
    destruct (run_block c d b s) as [s1 r1] eqn:Hb1.
    apply run_block_effect in Hb1 as (_ & cs & Hcalls & Hcs & Hreq); [| exact Hb].
    change (PyStr.mem (b_feature b) (features c)) with (requested c (b_feature b)) in Hreq.
    destruct (requested c (b_feature b)).
    + destruct cs as [|k cs]; [done |].
      apply omap_feature_replicate in Hcs. cbn [length] in Hcs.
      destruct r1 as [e|[]].
      * intros [= <- <-]. exists (replicate (S (length cs)) (b_feature b)), [b_feature b].
        rewrite Hcalls, omap_app, Hcs. split_and!; [done | | | done].
        -- rewrite <- (app_nil_r (replicate _ _)).
           exact (runs_cons _ _ _ _ runs_nil).
        -- by apply prefix_cons, prefix_nil.
      * intros Hrun. destruct (IH _ Hrun) as (tr & fs & Htr & Hruns & Hpre & Hall).
        exists (replicate (S (length cs)) (b_feature b) ++ tr)%list, (b_feature b :: fs).
        rewrite Htr, Hcalls, omap_app, Hcs, <- app_assoc.
        split_and!;
          [done | exact (runs_cons _ _ _ _ Hruns) | by apply prefix_cons |].
        intros Hr. by rewrite Hall.
    + destruct Hreq as (-> & -> & ->). apply IH.
Qed.

Lemma NoDup_list_filter (p : string → bool) l : NoDup l → NoDup (List.filter p l).
Proof.
  induction 1 as [|x l Hx Hnd IH]; cbn; [constructor |].
  destruct (p x); [| exact IH]. constructor; [| exact IH].
  intros Hin. apply Hx. apply list_elem_of_In in Hin. apply filter_In in Hin as [Hin _].
  by apply list_elem_of_In.
Qed.

Lemma valid_scope_blocks A c :
  valid_scope (report_scope c) = true →
  ∃ bs, scope_blocks A c = Some bs ∧ NoDup (map b_feature bs).
Proof.
  unfold valid_scope, PyStr.mem, scope_blocks. cbn [existsb].
  destruct (String.eqb (report_scope c) "enterprise");
    [eexists; split; [reflexivity | apply (bool_decide_unpack _); vm_compute; exact I] |].
  destruct (String.eqb (report_scope c) "organization");
    [eexists; split; [reflexivity | apply (bool_decide_unpack _); vm_compute; exact I] |].
  destruct (String.eqb (report_scope c) "repository");
    [eexists; split; [reflexivity | apply (bool_decide_unpack _); vm_compute; exact I]
    | discriminate].
Qed.

(** C7. In a run in one of the three scopes, the features fetched, in the
    order of their calls, are an initial part of the requested features
    taken in the order of the scope (secret scanning, code scanning,
    Dependabot for enterprise; code scanning, Dependabot, secret scanning
    otherwise), and all of them when the run ends normally. *)
Theorem fetches_in_scope_order A c st0 :
  calls st0 = [] →
  valid_scope (report_scope c) = true →
  let r := main A c st0 in
  let expected := List.filter (requested c) (scope_order (report_scope c)) in
  fetched (fst r) `prefix_of` expected ∧
  (snd r = inr tt → fetched (fst r) = expected).
Proof.
  intros Hcalls Hvalid r expected. subst r expected.
  destruct (valid_scope_blocks A c Hvalid) as (bs & Hbs & Hnd).
  destruct (scope_blocks_table A c bs Hbs) as (Hord & _ & Hfetch & _).
  rewrite <- Hord.
  unfold main, bind at 1, print, bind.
  destruct (fetch_admin_details A c _) as [s0 [e|d]] eqn:Hadm;
    apply fetch_admin_details_effect in Hadm as (_ & _ & Hs0);
    cbn [calls add_stdout] in Hs0; rewrite Hcalls in Hs0; cbn in Hs0.
  - cbn [fst snd]. unfold fetched. rewrite Hs0. split; [apply prefix_nil | done].
  - rewrite run_scope_blocks, Hbs.
    destruct (for_each bs (run_block c d) s0) as [s' r] eqn:Hrun.
    destruct (run_blocks_fetched _ _ _ _ _ _ Hfetch Hrun)
      as (tr & fs & Htr & Hruns & Hpre & Hall).
    rewrite Hs0 in Htr. cbn [app] in Htr. cbn [fst snd]. unfold fetched. rewrite Htr.
    assert (Hfs : NoDup fs).
    { destruct Hpre as [k Hk].
      pose proof (NoDup_list_filter (requested c) _ Hnd) as Hnd'.
      rewrite Hk in Hnd'. by apply NoDup_app in Hnd' as (? & _). }
    rewrite (runs_collapse _ _ Hruns Hfs). split; [exact Hpre | exact Hall].
Qed.

(** ** The theorems at sample inputs *)

Lemma admins_of_scope_name_witness :
  files (fst (write_csv_with_admins (Some "octo/repo") "repository_code_scanning.csv"
                [Sample.alert1] Sample.admins initial))
    !! "repository_code_scanning.csv" =
  Some [[VStr "number"; VStr "state"; VStr "Admins"];
        [VInt 1; VStr "open"; VStr "alice, carol"]].
Proof.
  destruct (admins_of_scope_name Sample.api_ok (Sample.make_config "repository" FEATURES)
              Sample.admins "repository_code_scanning.csv" [Sample.alert1] 0 Sample.alert1
              initial initial (add_call requests_get_call initial) ["alice"; "carol"]
              eq_refl eq_refl) as [_ Hrepo].
  destruct (Hrepo eq_refl eq_refl) as [_ Hfile]. exact Hfile.
Defined.

Lemma admin_map_is_scope_name_only_witness :
  last (data_row (Some "octo/repo") Sample.admins Sample.alert2) = Some (VStr "").
Proof.
  destruct (admin_map_is_scope_name_only Sample.api_ok
              (Sample.make_config "organization" FEATURES)
              initial (add_call requests_get_call initial) Sample.admins
              eq_refl eq_refl) as [_ Hrow].
  apply (Hrow Sample.alert2). discriminate.
Defined.

Lemma invalid_scope_exits_witness :
  snd (script Sample.api_ok {["GITHUB_REPORT_SCOPE" := "org"]} initial)
    = inl (SystemExit "Invalid report scope") ∧
  files (fst (script Sample.api_ok {["GITHUB_REPORT_SCOPE" := "org"]} initial)) = ∅.
Proof.
  assert (Hscope : valid_scope
            (getenv {["GITHUB_REPORT_SCOPE" := "org"]} "GITHUB_REPORT_SCOPE" "repository")
            = false) by (vm_compute; reflexivity).
  destruct (invalid_scope_exits Sample.api_ok {["GITHUB_REPORT_SCOPE" := "org"]} initial
              Hscope) as (Hexit & _ & _ & Hfiles & _).
  split; [exact Hexit | exact Hfiles].
Defined.

Lemma other_exception_terminates_witness :
  main Sample.api_dep_error SampleRuns.org_all initial =
    (add_call list_org_dependabot_alerts_call SampleRuns.after_org_cs,
     inl (Error Sample.server_error)) ∧
  files (add_call list_org_dependabot_alerts_call SampleRuns.after_org_cs)
    !! "organization_secret_scanning.csv" = None.
Proof.
  assert (Hreach : reaches Sample.api_dep_error SampleRuns.org_all initial Sample.admins
            [org_cs Sample.api_dep_error SampleRuns.org_all] SampleRuns.after_org_cs).
  { exists Sample.started. split; vm_compute; reflexivity. }
  destruct (other_exception_terminates Sample.api_dep_error SampleRuns.org_all initial
              Sample.admins
              [org_cs Sample.api_dep_error SampleRuns.org_all]
              (org_dependabot Sample.api_dep_error SampleRuns.org_all)
              [org_ss Sample.api_dep_error SampleRuns.org_all]
              SampleRuns.after_org_cs
              (add_call list_org_dependabot_alerts_call SampleRuns.after_org_cs)
              (Error Sample.server_error)
              eq_refl Hreach eq_refl eq_refl eq_refl) as (Hmain & _ & Hlater).
  split; [exact Hmain |].
  assert (Hin : org_ss Sample.api_dep_error SampleRuns.org_all ∈
            [org_dependabot Sample.api_dep_error SampleRuns.org_all;
             org_ss Sample.api_dep_error SampleRuns.org_all]) by (right; left).
  exact (eq_trans (Hlater _ Hin) (lookup_empty _)).
Defined.

Lemma disabled_feature_is_skipped_witness :
  main Sample.api_ss_disabled SampleRuns.enterprise_all initial =
    for_each [enterprise_cs Sample.api_ss_disabled SampleRuns.enterprise_all;
              enterprise_dependabot Sample.api_ss_disabled SampleRuns.enterprise_all]
      (run_block SampleRuns.enterprise_all Sample.admins)
      (add_stdout Sample.ss_disabled
         (add_stdout "Skipping Secret Scanning as it is not enabled."
            (add_call get_enterprise_ss_alerts_call Sample.started))).
Proof.
  assert (Hreach : reaches Sample.api_ss_disabled SampleRuns.enterprise_all initial
            Sample.admins [] Sample.started).
  { exists Sample.started. split; vm_compute; reflexivity. }
  destruct (disabled_feature_is_skipped Sample.api_ss_disabled SampleRuns.enterprise_all
              initial Sample.admins []
              (enterprise_ss Sample.api_ss_disabled SampleRuns.enterprise_all)
              [enterprise_cs Sample.api_ss_disabled SampleRuns.enterprise_all;
               enterprise_dependabot Sample.api_ss_disabled SampleRuns.enterprise_all]
              Sample.started (add_call get_enterprise_ss_alerts_call Sample.started)
              (Error Sample.ss_disabled)
              eq_refl Hreach eq_refl eq_refl) as [Hskip _].
  destruct Hskip as (phrases & notice & Hexc & _ & Hmain & _).
  - left. split; reflexivity.
  - injection Hexc as <- <-. exact Hmain.
Defined.

Lemma empty_alert_list_raises_witness :
  main Sample.api_dep_empty SampleRuns.repo_dependabot_only initial =
    (set_files (fun fs => <["repository_dependabot.csv" := []]> fs)
       (add_call list_repo_dependabot_alerts_call Sample.started),
     inl IndexError).
Proof.
  assert (Hreach : reaches Sample.api_dep_empty SampleRuns.repo_dependabot_only initial
            Sample.admins
            [repo_cs Sample.api_dep_empty SampleRuns.repo_dependabot_only] Sample.started).
  { exists Sample.started. split; vm_compute; reflexivity. }
  destruct (empty_alert_list_raises Sample.api_dep_empty SampleRuns.repo_dependabot_only
              initial Sample.admins
              [repo_cs Sample.api_dep_empty SampleRuns.repo_dependabot_only]
              (repo_dependabot Sample.api_dep_empty SampleRuns.repo_dependabot_only)
              [repo_ss Sample.api_dep_empty SampleRuns.repo_dependabot_only]
              Sample.started (add_call list_repo_dependabot_alerts_call Sample.started)
              (Some "octo/repo") "repository_dependabot.csv" Sample.admins initial
              eq_refl Hreach eq_refl eq_refl) as (_ & Hmain & _).
  exact Hmain.
Defined.

Lemma enterprise_code_scanning_by_version_witness :
  ((∃ cs,
      calls (fst (main Sample.api_ok SampleRuns.enterprise_all initial)) =
        ([requests_get_call; get_enterprise_ss_alerts_call;
          get_enterprise_version_call; get_repo_report_call] ++ cs)%list ∧
      list_enterprise_cloud_cs_alerts_call ∉ cs) ∧
   files (fst (main Sample.api_ok SampleRuns.enterprise_all initial))
     !! "enterprise_code_scanning.csv" =
     Some [[VStr "number"; VStr "state"; VStr "Admins"];
           [VInt 1; VStr "open"; VStr "alice, carol"];
           [VInt 2; VStr "open"; VStr "octo/other"; VStr ""]]) ∧
  ((∃ cs,
      calls (fst (main Sample.api_ok_39 SampleRuns.enterprise_all initial)) =
        ([requests_get_call; get_enterprise_ss_alerts_call;
          get_enterprise_version_call; list_enterprise_cloud_cs_alerts_call]
           ++ cs)%list ∧
      (get_repo_report_call ∉ cs) ∧
      (list_enterprise_server_cs_alerts_call ∉ cs)) ∧
   files (fst (main Sample.api_ok_39 SampleRuns.enterprise_all initial))
     !! "enterprise_code_scanning.csv" =
     Some [[VStr "number"; VStr "state"; VStr "Admins"];
           [VInt 1; VStr "open"; VStr "alice, carol"];
           [VInt 2; VStr "open"; VStr "octo/other"; VStr ""]]).
Proof.
  assert (Hreach : ∀ A, A = Sample.api_ok ∨ A = Sample.api_ok_39 →
            reaches A SampleRuns.enterprise_all initial Sample.admins
              [enterprise_ss A SampleRuns.enterprise_all] SampleRuns.after_enterprise_ss).
  { intros A [-> | ->]; exists Sample.started; split; vm_compute; reflexivity. }
  split.
  - destruct (enterprise_code_scanning_by_version Sample.api_ok SampleRuns.enterprise_all
                initial Sample.admins SampleRuns.after_enterprise_ss "3.6.1"
                eq_refl eq_refl (Hreach _ (or_introl eq_refl)) eq_refl) as [Hserver _].
    destruct (Hserver eq_refl) as (_ & (cs & Hcalls & Hcs) & Hfile).
    split; [exists cs; split; [exact Hcalls | exact Hcs] |].
    exact (Hfile ["octo/repo"] Sample.alert1 [Sample.alert2] eq_refl eq_refl).
  - destruct (enterprise_code_scanning_by_version Sample.api_ok_39 SampleRuns.enterprise_all
                initial Sample.admins SampleRuns.after_enterprise_ss "3.9.0"
                eq_refl eq_refl (Hreach _ (or_intror eq_refl)) eq_refl) as [_ Hcloud].
    destruct (Hcloud eq_refl) as (_ & (cs & Hcalls & Hcs) & Hfile).
    split; [exists cs; split; [exact Hcalls | exact Hcs] |].
    exact (Hfile Sample.alert1 [Sample.alert2] eq_refl).
Defined.

Lemma fetches_in_scope_order_witness :
  fetched (fst (main Sample.api_ok SampleRuns.org_two initial)) =
    ["codescanning"; "secretscanning"].
Proof.
  destruct (fetches_in_scope_order Sample.api_ok SampleRuns.org_two initial
              eq_refl eq_refl) as [_ Hdone].
  apply Hdone. vm_compute. reflexivity.
Defined.

(** C1 as stated fails. A text with a known disabled phrase, raised by the
    code scanning fetch, ends the run; raised by the Dependabot fetch, whose
    handler looks for the Dependabot phrases only, it ends the run too, and
    the secret scanning fetch that follows is never made. *)
Lemma disabled_text_not_always_skipped :
  PyStr.any_in known_disabled_strings (PyStr.lower Sample.ss_disabled) = true ∧
  b_fetch (repo_cs Sample.api_cs_raises SampleRuns.repo_all) Sample.started =
    (add_call list_repo_cs_alerts_call Sample.started, inl (Error Sample.ss_disabled)) ∧
  main Sample.api_cs_raises SampleRuns.repo_all initial =
    (add_call list_repo_cs_alerts_call Sample.started, inl (Error Sample.ss_disabled)) ∧
  b_fetch (repo_dependabot Sample.api_dep_raises_ss SampleRuns.repo_all)
    (add_call list_repo_cs_alerts_call Sample.started) =
    (add_call list_repo_dependabot_alerts_call
       (add_call list_repo_cs_alerts_call Sample.started),
     inl (Error Sample.ss_disabled)) ∧
  snd (main Sample.api_dep_raises_ss SampleRuns.repo_all initial) =
    inl (Error Sample.ss_disabled) ∧
  calls (fst (main Sample.api_dep_raises_ss SampleRuns.repo_all initial)) =
    [requests_get_call; list_repo_cs_alerts_call; list_repo_dependabot_alerts_call].
Proof. split_and!; vm_compute; reflexivity. Qed.

(** * Further properties *)

(** ** The feature list *)

Lemma list_remove_invalid_filter f l :
  valid_feature f = false →
  List.filter valid_feature (list_remove f l) = List.filter valid_feature l.
Proof.
  intros Hf. induction l as [|y l IH]; [reflexivity |]. cbn [list_remove].
  destruct (String.eqb_spec y f) as [->|Hne].
  - cbn [List.filter]. by rewrite Hf.
  - cbn [List.filter]. by rewrite IH.
Qed.

Lemma list_remove_sublist f l : sublist (list_remove f l) l.
Proof.
  induction l as [|y l IH]; [constructor |]. cbn [list_remove].
  destruct (String.eqb y f); [by apply sublist_cons | by apply sublist_skip].
Qed.

Lemma list_remove_length_in f l :
  f ∈ l → S (length (list_remove f l)) = length l.
Proof.
  induction l as [|y l IH]; intros Hin; [by apply elem_of_nil in Hin |].
  cbn [list_remove]. destruct (String.eqb_spec y f) as [->|Hne]; [reflexivity |].
  apply elem_of_cons in Hin as [->|Hin]; [done |]. cbn [length]. by rewrite IH.
Qed.

(** What the loop keeps whatever the list: the valid names, in their order;
    the result is a part of the list, one warning is printed per name
    removed, and each name removed is invalid. *)
Lemma loop_run_keeps_valid i l final out :
  loop_run i l final out →
  List.filter valid_feature final = List.filter valid_feature l ∧
  sublist final l ∧
  length l = (length final + length out)%nat.
Proof.
  induction 1 as [i l Hi | i l f final out Hi Hf _ IH | i l f final out Hi Hf _ IH].
  - split_and!; [done | done | cbn; lia].
  - exact IH.
  - destruct IH as (IHf & IHs & IHl). split_and!.
    + rewrite IHf. by apply list_remove_invalid_filter.
    + etransitivity; [exact IHs | apply list_remove_sublist].
    + rewrite <- (list_remove_length_in f l) by (eapply list_elem_of_lookup_2; eassumption).
      cbn [length]. lia.
Qed.

(** The resolution of a list other than [all]: it never raises, prints the
    warnings and nothing else, and its result is the one of [loop_run]. *)
Lemma resolve_features_loop r st :
  String.eqb r "all" = false →
  ∃ features out,
    resolve_features (Some r) st =
      (State (files st) (stdout st ++ out) (calls st), inr features) ∧
    loop_run 0 (PyStr.split_comma r) features out.
Proof.
  intros Hall. unfold resolve_features. rewrite Hall.
  destruct (drop_invalid_loop_run (length (PyStr.split_comma r)) 0
              (PyStr.split_comma r) st) as (final & out & Hrun & Heq); [lia |].
  eauto.
Qed.

(** X1. For a [FEATURES] value other than [all], the resolution never
    raises and touches nothing but the standard output; whatever names are
    invalid, every valid name of the request is kept, in its place and as
    often as it was given; the result is a part of the request, and one
    warning is printed for each name removed. *)
Theorem resolved_features_keep_valid_names r st :
  String.eqb r "all" = false →
  ∃ features out,
    resolve_features (Some r) st =
      (State (files st) (stdout st ++ out) (calls st), inr features) ∧
    List.filter valid_feature features = List.filter valid_feature (PyStr.split_comma r) ∧
    sublist features (PyStr.split_comma r) ∧
    length (PyStr.split_comma r) = (length features + length out)%nat.
Proof.
  intros Hall. destruct (resolve_features_loop r st Hall) as (final & out & Heq & Hrun).
  exists final, out. split; [exact Heq |]. by apply loop_run_keeps_valid in Hrun.
Qed.

Lemma list_remove_at f l i :
  l !! i = Some f → f ∉ take i l → list_remove f l = (take i l ++ drop (S i) l)%list.
Proof.
  revert i. induction l as [|y l IH]; intros i Hi Hnot; [discriminate |].
  destruct i as [|i].
  - cbn in Hi. injection Hi as ->. cbn. by rewrite String.eqb_refl.
  - cbn in Hi. cbn [take drop list_remove] in *.
    apply not_elem_of_cons in Hnot as [Hne Hnot].
    destruct (String.eqb_spec y f) as [->|_]; [done |].
    cbn. f_equal. by apply IH.
Qed.

Lemma no_adjacent_invalid_tail x l :
  no_adjacent_invalid (x :: l) = true → no_adjacent_invalid l = true.
Proof.
  cbn. destruct l as [|y l]; [done |]. intros H. by apply andb_true_iff in H as [_ H].
Qed.

Lemma no_adjacent_invalid_next x y l :
  no_adjacent_invalid (x :: y :: l) = true → valid_feature x = false →
  valid_feature y = true.
Proof.
  cbn [no_adjacent_invalid]. intros H Hx. apply andb_true_iff in H as [H _].
  by rewrite Hx in H.
Qed.

(** When no two invalid names stand side by side the loop examines every
    invalid name, and only valid names are left. *)
Lemma loop_run_all_valid i l final out :
  loop_run i l final out →
  Forall (fun f => valid_feature f = true) (take i l) →
  no_adjacent_invalid (drop i l) = true →
  Forall (fun f => valid_feature f = true) final.
Proof.
  induction 1 as [i l Hi | i l f final out Hi Hf _ IH | i l f final out Hi Hf _ IH];
    intros Htake Hdrop.
  - apply lookup_ge_None in Hi. by rewrite take_ge in Htake.
  - pose proof (drop_S _ _ _ Hi) as Hd. rewrite Hd in Hdrop. apply IH.
    + rewrite (take_S_r _ _ _ Hi). apply Forall_app. split; [done |]. by constructor.
    + by apply no_adjacent_invalid_tail in Hdrop.
  - pose proof (drop_S _ _ _ Hi) as Hd. rewrite Hd in Hdrop.
    assert (Hlen : length (take i l) = i).
    { apply length_take_le. apply lookup_lt_Some in Hi. lia. }
    assert (Hnot : f ∉ take i l).
    { intros Hin. rewrite Forall_forall in Htake. apply Htake in Hin.
      change (PyStr.mem f FEATURES) with (valid_feature f) in Hf. congruence. }
    rewrite (list_remove_at _ _ _ Hi Hnot) in IH.
    change (PyStr.mem f FEATURES) with (valid_feature f) in Hf.
    apply IH.
    + rewrite take_app_ge by lia. rewrite Hlen.
      replace (S i - i)%nat with 1%nat by lia.
      apply Forall_app. split; [done |].
      destruct (drop (S i) l) as [|y rest]; [constructor |].
      cbn. repeat constructor. by eapply no_adjacent_invalid_next.
    + rewrite drop_app_ge by lia. rewrite Hlen.
      replace (S i - i)%nat with 1%nat by lia.
      destruct (drop (S i) l) as [|y rest]; [done |].
      cbn [drop]. rewrite drop_0.
      by apply no_adjacent_invalid_tail, no_adjacent_invalid_tail in Hdrop.
Qed.

Lemma filter_all_valid (p : string → bool) l :
  Forall (fun f => p f = true) l → List.filter p l = l.
Proof.
  induction 1 as [|x l Hx _ IH]; [reflexivity |]. cbn. by rewrite Hx, IH.
Qed.

(** X2. When no two invalid names stand side by side in the request, the
    resolved list is exactly the valid names of the request, in order. *)
Theorem resolved_features_without_adjacent_invalid r st :
  String.eqb r "all" = false →
  no_adjacent_invalid (PyStr.split_comma r) = true →
  ∃ out,
    resolve_features (Some r) st =
      (State (files st) (stdout st ++ out) (calls st),
       inr (List.filter valid_feature (PyStr.split_comma r))).
Proof.
  intros Hall Hadj. destruct (resolve_features_loop r st Hall) as (final & out & Heq & Hrun).
  exists out. rewrite Heq. do 2 f_equal.
  pose proof (loop_run_keeps_valid _ _ _ _ Hrun) as (Hfilter & _).
  rewrite <- Hfilter. symmetry. apply filter_all_valid.
  eapply loop_run_all_valid; [exact Hrun | constructor | exact Hadj].
Qed.

Lemma mem_filter_valid f l :
  valid_feature f = true →
  PyStr.mem f (List.filter valid_feature l) = PyStr.mem f l.
Proof.
  intros Hf. induction l as [|y l IH]; [reflexivity |]. cbn [List.filter].
  destruct (valid_feature y) eqn:Hy.
  - unfold PyStr.mem in *. cbn [existsb]. by rewrite IH.
  - rewrite IH. unfold PyStr.mem. cbn [existsb].
    destruct (String.eqb_spec f y) as [->|_]; [congruence | reflexivity].
Qed.

(** The orchestrator reads the feature list through three membership tests
    only. *)
Lemma main_features_ext A c fs fs' st :
  (∀ f, valid_feature f = true → PyStr.mem f fs = PyStr.mem f fs') →
  main A (with_features c fs) st = main A (with_features c fs') st.
Proof.
  intros Hmem.
  assert (Hss := Hmem "secretscanning" eq_refl).
  assert (Hcs := Hmem "codescanning" eq_refl).
  assert (Hdep := Hmem "dependabot" eq_refl).
  unfold main. apply bind_ext; [reflexivity | intros _ s0].
  apply bind_ext; [reflexivity | intros d s1].
  unfold run_scope. cbn [report_scope features with_features api_endpoint url
    github_pat scope_name].
  rewrite Hss, Hcs, Hdep. reflexivity.
Qed.

(** X3. An invalid name that the loop leaves in the feature list changes
    nothing: the script runs as [main] does with the valid names of the
    request alone. *)
Theorem leftover_invalid_names_are_inert A environ r st :
  environ !! "FEATURES" = Some r →
  String.eqb r "all" = false →
  ∃ c out,
    read_config environ st = (State (files st) (stdout st ++ out) (calls st), inr c) ∧
    script A environ st =
      main A (with_features c (List.filter valid_feature (PyStr.split_comma r)))
        (State (files st) (stdout st ++ out) (calls st)).
Proof.
  intros Henv Hall.
  destruct (resolve_features_loop r st Hall) as (fs & out & Hres & Hrun).
  pose proof (loop_run_keeps_valid _ _ _ _ Hrun) as (Hfilter & _).
  eexists _, out. split.
  - unfold read_config, bind. rewrite Henv, Hres. unfold ret. reflexivity.
  - unfold script, read_config, bind. rewrite Henv, Hres. unfold ret.
    match goal with |- main A ?c0 ?s = _ =>
      change (main A (with_features c0 fs) s =
              main A (with_features c0
                        (List.filter valid_feature (PyStr.split_comma r))) s)
    end.
    apply main_features_ext. intros f Hf.
    by rewrite <- (mem_filter_valid f fs Hf), Hfilter, mem_filter_valid.
Qed.

(** ** Recognising a disabled feature *)

Lemma startswith_spec s x : PyStr.startswith s x = true ↔ ∃ q, s = x ++ q.
Proof.
  revert s. induction x as [|a x IH]; intros s.
  - split; [intros _; by exists s | intros _; by destruct s].
  - destruct s as [|b s]; cbn.
    + split; [discriminate | intros [q [=]]].
    + destruct (Ascii.eqb_spec a b) as [->|Hne].
      * rewrite IH. split; intros [q Hq]; exists q; [by rewrite Hq | by injection Hq].
      * split; [discriminate | intros [q [=]]; congruence].
Qed.

Lemma contains_spec x s : PyStr.contains x s = true ↔ ∃ p q, s = p ++ x ++ q.
Proof.
  induction s as [|b s IH].
  - cbn [PyStr.contains]. rewrite orb_false_r, startswith_spec. split.
    + intros [q Hq]. by exists "", q.
    + intros (p & q & Hpq). destruct p; [by exists q |]. discriminate.
  - cbn [PyStr.contains]. rewrite orb_true_iff, startswith_spec, IH. split.
    + intros [[q Hq] | (p & q & Hpq)]; [by exists "", q |].
      exists (String b p), q. cbn. by rewrite Hpq.
    + intros (p & q & Hpq). destruct p as [|a p]; [left; by exists q |].
      right. injection Hpq as -> ->. by exists p, q.
Qed.

Lemma lower_app s t : PyStr.lower (s ++ t) = PyStr.lower s ++ PyStr.lower t.
Proof.
  induction s as [|a s IH]; [reflexivity |].
  change (PyStr.lower (String a (s ++ t)) =
          String (PyStr.lower_ascii a) (PyStr.lower s ++ PyStr.lower t)).
  cbn [PyStr.lower]. f_equal. exact IH.
Qed.

(** X4. An exception text is taken for "feature disabled" exactly when its
    lowercased form holds one of the phrases as a contiguous part. *)
Theorem disabled_phrase_matching phrases text :
  PyStr.any_in phrases (PyStr.lower text) = true ↔
  ∃ phrase p q, In phrase phrases ∧ PyStr.lower text = p ++ phrase ++ q.
Proof.
  unfold PyStr.any_in. rewrite existsb_exists. split.
  - intros (phrase & Hin & Hc). apply contains_spec in Hc as (p & q & Hpq). eauto.
  - intros (phrase & p & q & Hin & Hpq). exists phrase. split; [exact Hin |].
    apply contains_spec. eauto.
Qed.

(** X5. The test ignores letter case and what surrounds the phrase: a text
    that holds, anywhere, a piece whose lowercase form is a phrase of the
    list is recognised. *)
Theorem disabled_phrase_in_any_case phrases phrase before t after :
  In phrase phrases →
  PyStr.lower t = phrase →
  PyStr.any_in phrases (PyStr.lower (before ++ t ++ after)) = true.
Proof.
  intros Hin Ht. unfold PyStr.any_in. apply existsb_exists.
  exists phrase. split; [exact Hin |]. apply contains_spec.
  exists (PyStr.lower before), (PyStr.lower after). by rewrite !lower_app, Ht.
Qed.

(** ** The admin lookup *)

(** X6. In a valid scope, when [get_repo_admins] returns for [scope_name]:
    the request went to
    [{api_endpoint}/repos/{scope_name}/collaborators?affiliation=admin] with
    the header [token {github_pat}] and its status was not an error; the
    list returned is the logins of the collaborators of the response whose
    [permissions.admin] is true, each as often as it occurs and in the
    order of the response; the admin map of the run is that list under
    [scope_name], and a record without the key [repository] gets its join
    by [", "] as Admins cell. *)
Theorem admin_logins_fill_the_admins_cell A c st0 s0 admins :
  valid_scope (report_scope c) = true →
  get_repo_admins A (scope_name c) (api_endpoint c) (github_pat c)
    (add_stdout "Starting GitHub security report..." st0) = (s0, inr admins) →
  ∃ resp,
    requests_get A
      (api_endpoint c ++ "/repos/" ++ fmt (scope_name c)
         ++ "/collaborators?affiliation=admin")
      ("token " ++ fmt (github_pat c)) = inr resp ∧
    raise_for_status resp = None ∧
    admins = map login (List.filter permissions_admin (json resp)) ∧
    reaches A c st0 {[scope_name c := admins]} [] s0 ∧
    (∀ row, has_key row "repository" = false →
            last (data_row (scope_name c) {[scope_name c := admins]} row) =
              Some (VStr (PyStr.join ", "
                            (map login (List.filter permissions_admin (json resp)))))).
Proof.
  intros Hvalid Hadm.
  assert (Hresp : ∃ resp,
    requests_get A
      (api_endpoint c ++ "/repos/" ++ fmt (scope_name c)
         ++ "/collaborators?affiliation=admin")
      ("token " ++ fmt (github_pat c)) = inr resp ∧
    raise_for_status resp = None ∧
    admins = map login (List.filter permissions_admin (json resp))).
  { revert Hadm. unfold get_repo_admins, bind, perform, raise, ret.
    destruct (requests_get A _ _) as [text|resp]; [discriminate |].
    destruct (raise_for_status resp) eqn:Hstatus; [discriminate |].
    intros [= _ <-]. by exists resp. }
  destruct Hresp as (resp & Hreq & Hstatus & Hlist).
  exists resp. split_and!; [exact Hreq | exact Hstatus | exact Hlist | |].
  - exists s0. split; [| reflexivity].
    assert (Hd : <[scope_name c := admins]> (∅ : gmap name (list string))
                 = {[scope_name c := admins]}) by apply insert_empty.
    unfold fetch_admin_details.
    destruct (String.eqb (report_scope c) "repository") eqn:Hr.
    + unfold bind. rewrite Hadm. unfold ret. by rewrite Hd.
    + assert (Hoe : PyStr.mem (report_scope c) ["organization"; "enterprise"] = true).
      { unfold valid_scope, PyStr.mem in *. cbn [existsb] in *. rewrite Hr in Hvalid.
        destruct (String.eqb (report_scope c) "enterprise"),
          (String.eqb (report_scope c) "organization"); done. }
      rewrite Hoe. cbn [for_fold]. unfold bind. rewrite Hadm. unfold ret. by rewrite Hd.
  - intros row Hkey.
    rewrite data_row_last, (dict_get_absent _ _ _ Hkey), admins_get_name.
    rewrite lookup_singleton_eq. cbn [default]. by rewrite Hlist.
Qed.

(** X7. In a valid scope, when the admin lookup raises, the run ends with
    that exception after this one request: no feature is fetched and no
    file is written. *)
Theorem admin_lookup_failure_ends_run A c st s' e :
  valid_scope (report_scope c) = true →
  get_repo_admins A (scope_name c) (api_endpoint c) (github_pat c)
    (add_stdout "Starting GitHub security report..." st) = (s', inl e) →
  main A c st = (s', inl e) ∧
  files s' = files st ∧
  calls s' = (calls st ++ [requests_get_call])%list ∧
  exit_status (snd (main A c st)) = 1%Z.
Proof.
  intros Hvalid Hadm.
  assert (Hmain : main A c st = (s', inl e)).
  { unfold main, bind at 1, print, bind. unfold fetch_admin_details.
    destruct (String.eqb (report_scope c) "repository") eqn:Hr.
    - unfold bind. by rewrite Hadm.
    - assert (Hoe : PyStr.mem (report_scope c) ["organization"; "enterprise"] = true).
      { unfold valid_scope, PyStr.mem in *. cbn [existsb] in *. rewrite Hr in Hvalid.
        destruct (String.eqb (report_scope c) "enterprise"),
          (String.eqb (report_scope c) "organization"); done. }
      rewrite Hoe. cbn [for_fold]. unfold bind. by rewrite Hadm. }
  rewrite Hmain. apply get_repo_admins_files in Hadm. subst s'.
  split_and!; reflexivity.
Qed.

(** X8. Whatever the scope, the admin map never has a key other than
    [scope_name], and for a scope that is not valid it is empty and no
    request is made; so in repository scope too a record whose [repository]
    value differs from [scope_name] gets an empty Admins cell. *)
Theorem admin_map_has_no_other_key A c st st' admin_details :
  fetch_admin_details A c st = (st', inr admin_details) →
  (∀ k, k ≠ scope_name c → admin_details !! k = None) ∧
  (valid_scope (report_scope c) = false → admin_details = ∅ ∧ st' = st) ∧
  (∀ row,
      dict_get row "repository" (val_of_name (scope_name c)) ≠ val_of_name (scope_name c) →
      last (data_row (scope_name c) admin_details row) = Some (VStr "")).
Proof.
  intros Hfetch.
  assert (Hcases : (admin_details = ∅ ∧ st' = st ∧ valid_scope (report_scope c) = false)
                   ∨ (∃ admins, admin_details = {[scope_name c := admins]}
                        ∧ valid_scope (report_scope c) = true)).
  { unfold fetch_admin_details in Hfetch. unfold valid_scope, PyStr.mem in *.
    cbn [existsb] in *.
    destruct (String.eqb (report_scope c) "repository").
    - right. unfold bind, ret in Hfetch.
      destruct (get_repo_admins _ _ _ _ _) as [s1 [e|admins]]; [discriminate |].
      injection Hfetch as _ <-. exists admins. split; [apply insert_empty |].
      by rewrite !orb_true_r.
    - destruct (String.eqb (report_scope c) "organization"),
        (String.eqb (report_scope c) "enterprise"); cbn [orb] in *;
        try (right; cbn [for_fold] in Hfetch; unfold bind, ret in Hfetch;
             destruct (get_repo_admins _ _ _ _ _) as [s1 [e|admins]]; [discriminate |];
             injection Hfetch as _ <-; exists admins; split; [apply insert_empty | done]).
      left. unfold ret in Hfetch. by injection Hfetch as <- <-. }
  destruct Hcases as [(-> & -> & Hinv) | (admins & -> & Hval)].
  - split_and!; [intros; apply lookup_empty | done |].
    intros row _. rewrite data_row_last. unfold admins_get.
    destruct (name_of_val _); [by rewrite lookup_empty | done].
  - split_and!; [intros k Hk; by apply lookup_singleton_ne | congruence |].
    intros row Hne. by rewrite data_row_last, admins_get_singleton_ne.
Qed.

(** ** The writer *)

(** X9. The Admins cell of a record that has a [repository] value: when the
    value is a string, the admins that the map holds for it, joined by
    [", "]; empty when the value is a name (a string or [None]) that is no
    key of the map (the admins of [scope_name] are not used then); and
    empty when the value is a bool or an int, which equals no key. *)
Theorem admins_of_repository_value scope_name admin_details filename data i row v st :
  data !! i = Some row →
  dict_get row "repository" (val_of_name scope_name) = v →
  ∃ rows cells,
    files (fst (write_csv_with_admins scope_name filename data admin_details st))
      !! filename = Some rows ∧
    rows !! S i = Some cells ∧
    (∀ r admins, v = VStr r → admin_details !! Some r = Some admins →
                 last cells = Some (VStr (PyStr.join ", " admins))) ∧
    (∀ k, name_of_val v = Some k → admin_details !! k = None →
          last cells = Some (VStr "")) ∧
    (name_of_val v = None → last cells = Some (VStr "")).
Proof.
  intros Hi Hv. destruct data as [|first rest]; [discriminate |].
  rewrite write_csv_rows. cbn [fst]. unfold set_files; cbn [files].
  eexists _, (data_row scope_name admin_details row).
  split; [apply lookup_insert_eq |]. split.
  { change (map (data_row scope_name admin_details) (first :: rest) !! i
            = Some (data_row scope_name admin_details row)).
    by rewrite lookup_map, Hi. }
  rewrite data_row_last, Hv. unfold admins_get. split_and!.
  - intros r admins -> Hr. cbn [name_of_val]. unfold name in *. by rewrite Hr.
  - intros k -> Hk. by rewrite Hk.
  - by intros ->.
Qed.

(** X10. [write_csv_with_admins] changes the file [filename] and no other,
    prints nothing and makes no call, whether it returns or raises; the file
    exists afterwards, and its content and the outcome do not depend on what
    the file held, or on anything else of the state, before. *)
Theorem write_csv_touches_one_file scope_name filename data admin_details st st2 :
  let st' := fst (write_csv_with_admins scope_name filename data admin_details st) in
  (∀ g, g ≠ filename → files st' !! g = files st !! g) ∧
  stdout st' = stdout st ∧
  calls st' = calls st ∧
  is_Some (files st' !! filename) ∧
  files (fst (write_csv_with_admins scope_name filename data admin_details st2))
    !! filename = files st' !! filename ∧
  snd (write_csv_with_admins scope_name filename data admin_details st2)
    = snd (write_csv_with_admins scope_name filename data admin_details st).
Proof.
  destruct data as [|first rest]; cbv zeta.
  - rewrite !write_csv_empty. cbn [fst snd files stdout calls set_files].
    rewrite !lookup_insert_eq.
    split_and!; [intros; by apply lookup_insert_ne | done..].
  - rewrite !write_csv_rows. cbn [fst snd files stdout calls set_files].
    rewrite !lookup_insert_eq.
    split_and!; [intros; by apply lookup_insert_ne | done..].
Qed.

(** X11. Every data row holds the values of its record, in order, and then
    the Admins cell; the header has one cell more than the first record has
    keys. So a row is as wide as the header exactly when its record has as
    many keys as the first one. *)
Theorem row_width_follows_record scope_name admin_details filename first rest i row st :
  (first :: rest) !! i = Some row →
  ∃ header cells,
    files (fst (write_csv_with_admins scope_name filename (first :: rest)
                  admin_details st)) !! filename
      = Some (header :: map (data_row scope_name admin_details) (first :: rest)) ∧
    map (data_row scope_name admin_details) (first :: rest) !! i = Some cells ∧
    length header = S (length first) ∧
    length cells = S (length row) ∧
    take (length row) cells = values row ∧
    (length cells = length header ↔ length row = length first).
Proof.
  intros Hi. rewrite write_csv_rows. cbn [fst]. unfold set_files; cbn [files].
  eexists _, (data_row scope_name admin_details row).
  split; [apply lookup_insert_eq |].
  split; [rewrite lookup_map; unfold record in *; by rewrite Hi |].
  assert (Hh : length (map VStr (keys first) ++ [VStr "Admins"])%list = S (length first)).
  { unfold keys. rewrite length_app, !length_map. cbn. lia. }
  assert (Hc : length (data_row scope_name admin_details row) = S (length row)).
  { unfold data_row, values. rewrite length_app, length_map. cbn. lia. }
  split_and!; [exact Hh | exact Hc | | rewrite Hh, Hc; lia].
  unfold data_row. rewrite take_app_length'; [done |]. unfold values. by rewrite length_map.
Qed.

(** ** The run, block by block *)

(** X12. When the run has reached a requested feature block and its fetch
    returns at least one alert, the file of the block is written, header and
    one row per alert, nothing is printed, no other file changes, and the
    run goes on with the blocks that follow. *)
Theorem fetched_alerts_are_written A c st0 d pre b post s1 s1' first rest :
  scope_blocks A c = Some (pre ++ b :: post)%list →
  reaches A c st0 d pre s1 →
  PyStr.mem (b_feature b) (features c) = true →
  b_fetch b s1 = (s1', inr (first :: rest)) →
  let rows :=
    (map VStr (keys first) ++ [VStr "Admins"])%list
      :: map (data_row (scope_name c) d) (first :: rest) in
  let s2 := set_files (fun fs => <[b_file b := rows]> fs) s1' in
  reaches A c st0 d (pre ++ [b]) s2 ∧
  main A c st0 = for_each post (run_block c d) s2 ∧
  stdout s2 = stdout s1 ∧
  (∀ g, g ≠ b_file b → files s2 !! g = files s1 !! g).
Proof.
  intros Hbs Hreach Hreq Hfetch rows s2.
  destruct (scope_blocks_at _ _ _ _ _ Hbs) as (Hb & _ & _ & _).
  assert (Hblock : run_block c d b s1 = (s2, inr tt)).
  { assert (Hbody :
      (data <- b_fetch b ;; write_csv_with_admins (scope_name c) (b_file b) data d) s1
      = (s2, inr tt)).
    { unfold bind. rewrite Hfetch. apply write_csv_rows. }
    unfold run_block, when. rewrite Hreq. cbv zeta.
    destruct (b_except b) as [[phrases notice]|]; [| exact Hbody].
    unfold try_except. by rewrite Hbody. }
  destruct (Hb s1) as (cs & r & Hf & _). rewrite Hfetch in Hf. injection Hf as -> _.
  split_and!.
  - destruct Hreach as (s0 & Hadm & Hrun). exists s0. split; [exact Hadm |].
    rewrite for_each_app, Hrun. cbn [for_each]. unfold bind. by rewrite Hblock.
  - rewrite (main_continues _ _ _ _ _ _ _ Hreach Hbs). cbn [for_each]. unfold bind.
    by rewrite Hblock.
  - reflexivity.
  - intros g Hg. subst s2. cbn [files set_files]. by apply lookup_insert_ne.
Qed.

(** A block that is not requested leaves its file alone; a requested one
    changes its own file at most. *)
Lemma run_blocks_requested_files c d bs s s' r f :
  Forall (fun b => fetch_of (b_feature b) (b_fetch b)) bs →
  for_each bs (run_block c d) s = (s', r) →
  (∀ b, b ∈ bs → requested c (b_feature b) = true → b_file b ≠ f) →
  files s' !! f = files s !! f.
Proof.
  intros Hbs. revert s. induction Hbs as [|b bs Hb Hbs IH]; intros s.
  - by intros [= <- <-].
  - cbn [for_each]. unfold bind.
    destruct (run_block c d b s) as [s1 r1] eqn:Hb1.
    apply run_block_effect in Hb1 as (Hfiles & cs & _ & _ & Hreq); [| exact Hb].
    intros Hrun Hf.
    assert (H1 : files s1 !! f = files s !! f).
    { unfold requested in Hf. specialize (Hf b (list_elem_of_here _ _)).
      destruct (PyStr.mem (b_feature b) (features c)).
      - apply Hfiles. intros ->. by apply Hf.
      - by destruct Hreq as (_ & -> & _). }
    destruct r1 as [e|[]].
    + injection Hrun as <- <-. exact H1.
    + rewrite <- H1. apply (IH _ Hrun). intros b' Hb'. apply Hf. by right.
Qed.

Lemma scope_blocks_csv_names A c bs :
  scope_blocks A c = Some bs →
  Forall (fun b => ∃ stem, In (b_feature b, stem) csv_stems ∧
                           b_file b = csv_name (report_scope c) stem) bs.
Proof.
  unfold scope_blocks.
  destruct (String.eqb_spec (report_scope c) "enterprise") as [He|_];
    [| destruct (String.eqb_spec (report_scope c) "organization") as [He|_];
       [| destruct (String.eqb_spec (report_scope c) "repository") as [He|_];
          [| discriminate]]];
    intros Hbs; apply (inj Some) in Hbs; subst bs; rewrite He;
    repeat constructor;
    [ exists "secret_scanning" | exists "code_scanning" | exists "dependabot"
    | exists "code_scanning" | exists "dependabot" | exists "secret_scanning"
    | exists "code_scanning" | exists "dependabot" | exists "secret_scanning" ];
    (split; [cbn; tauto | reflexivity]).
Qed.

(** X13. A run in a valid scope leaves every file alone except the files
    [{scope}_secret_scanning.csv], [{scope}_code_scanning.csv] and
    [{scope}_dependabot.csv] of the features requested. *)
Theorem run_changes_requested_csv_only A c st0 f :
  valid_scope (report_scope c) = true →
  (∀ feature stem,
      In (feature, stem) csv_stems → requested c feature = true →
      f ≠ csv_name (report_scope c) stem) →
  files (fst (main A c st0)) !! f = files st0 !! f.
Proof.
  intros Hvalid Hf.
  destruct (valid_scope_blocks A c Hvalid) as (bs & Hbs & _).
  destruct (scope_blocks_table A c bs Hbs) as (_ & _ & Hfetch & _).
  pose proof (scope_blocks_csv_names A c bs Hbs) as Hnames.
  unfold main, bind at 1, print, bind.
  destruct (fetch_admin_details A c _) as [s0 [e|d]] eqn:Hadm;
    apply fetch_admin_details_effect in Hadm as (Hfiles & _); cbn [files add_stdout] in Hfiles.
  - cbn [fst]. by rewrite Hfiles.
  - rewrite run_scope_blocks, Hbs.
    destruct (for_each bs (run_block c d) s0) as [s' r] eqn:Hrun. cbn [fst].
    rewrite <- Hfiles. eapply run_blocks_requested_files; [exact Hfetch | exact Hrun |].
    intros b Hb Hreq Heq. rewrite Forall_forall in Hnames.
    destruct (Hnames b Hb) as (stem & Hin & Hname).
    apply (Hf _ _ Hin Hreq). by rewrite <- Heq, Hname.
Qed.

(** X14. Enterprise scope with code scanning requested, the run having got
    past the secret scanning block: for every version string the probe
    returns, the run takes the per-repository path when the string begins
    with ["3.5"] or ["3.6"] (whatever follows) and the enterprise-wide path
    otherwise. On the first path the calls that follow the probe begin with
    [get_repo_report] and never hold the enterprise-wide fetch; on the
    second they begin with that fetch and hold neither of the other two. On
    both, when the fetch returns alerts, [enterprise_code_scanning.csv]
    holds at the end of the run the header and one row per alert. *)
Theorem enterprise_code_scanning_dispatch A c st0 d s1 version :
  report_scope c = "enterprise" →
  PyStr.mem "codescanning" (features c) = true →
  reaches A c st0 d [enterprise_ss A c] s1 →
  get_enterprise_version A (api_endpoint c) = inr version →
  let per_repository :=
    PyStr.startswith version "3.5" || PyStr.startswith version "3.6" in
  (per_repository = true ↔ ∃ q, version = "3.5" ++ q ∨ version = "3.6" ++ q) ∧
  (per_repository = true →
   (∃ cs,
      calls (fst (main A c st0)) =
        (calls s1 ++ get_enterprise_version_call :: get_repo_report_call :: cs)%list ∧
      list_enterprise_cloud_cs_alerts_call ∉ cs) ∧
   (∀ repo_list first others,
      get_repo_report A (url c) (github_pat c) = inr repo_list →
      list_enterprise_server_cs_alerts A (api_endpoint c) (github_pat c) repo_list
        = inr (first :: others) →
      files (fst (main A c st0)) !! "enterprise_code_scanning.csv" =
        Some ((map VStr (keys first) ++ [VStr "Admins"])%list
                :: map (data_row (scope_name c) d) (first :: others)))) ∧
  (per_repository = false →
   (∃ cs,
      calls (fst (main A c st0)) =
        (calls s1 ++ get_enterprise_version_call
           :: list_enterprise_cloud_cs_alerts_call :: cs)%list ∧
      (get_repo_report_call ∉ cs) ∧
      (list_enterprise_server_cs_alerts_call ∉ cs)) ∧
   (∀ first others,
      list_enterprise_cloud_cs_alerts A (api_endpoint c) (github_pat c) (scope_name c)
        = inr (first :: others) →
      files (fst (main A c st0)) !! "enterprise_code_scanning.csv" =
        Some ((map VStr (keys first) ++ [VStr "Admins"])%list
                :: map (data_row (scope_name c) d) (first :: others)))).
Proof.
  intros Hscope Hreq Hreach Hversion per_repository.
  destruct (enterprise_code_scanning_run A c st0 d s1 version
              Hscope Hreq Hreach Hversion) as (_ & Hserver & Hcloud).
  split_and!; [| exact Hserver | exact Hcloud].
  subst per_repository. rewrite orb_true_iff, !startswith_spec.
  split; [intros [[q ->] | [q ->]] | intros (q & [-> | ->])]; eauto.
Qed.

(** ** No call is repeated *)

Local Ltac nodup_calls :=
  repeat (apply NoDup_cons; split;
          [intros Hin; repeat (apply elem_of_cons in Hin as [Hin|Hin]; [discriminate |]);
           by apply elem_of_nil in Hin |]);
  apply NoDup_nil_2.

Local Ltac fetch_calls cs :=
  exists cs; split; [cbn [fst calls]; rewrite <- ?app_assoc; reflexivity | nodup_calls].

Lemma perform_calls_once {X} k (r : result X) s :
  ∃ cs, calls (fst (perform k r s)) = (calls s ++ cs)%list ∧ NoDup cs.
Proof. unfold perform, add_call. destruct r; fetch_calls [k]. Qed.

Lemma enterprise_cs_fetch_calls_once A c s :
  ∃ cs, calls (fst (enterprise_cs_fetch A c s)) = (calls s ++ cs)%list ∧ NoDup cs.
Proof.
  unfold enterprise_cs_fetch, bind, perform, add_call.
  destruct (get_enterprise_version A (api_endpoint c)) as [text|version];
    [fetch_calls [get_enterprise_version_call] |].
  destruct (_ || _).
  - destruct (get_repo_report A (url c) (github_pat c)) as [text|repo_list];
      [fetch_calls [get_enterprise_version_call; get_repo_report_call] |].
    destruct (list_enterprise_server_cs_alerts _ _ _ _) as [text|data];
      fetch_calls [get_enterprise_version_call; get_repo_report_call;
                   list_enterprise_server_cs_alerts_call].
  - destruct (list_enterprise_cloud_cs_alerts _ _ _ _) as [text|data];
      fetch_calls [get_enterprise_version_call; list_enterprise_cloud_cs_alerts_call].
Qed.

Lemma scope_blocks_calls_once A c bs :
  scope_blocks A c = Some bs →
  Forall (fun b => ∀ s, ∃ cs,
            calls (fst (b_fetch b s)) = (calls s ++ cs)%list ∧ NoDup cs) bs.
Proof.
  unfold scope_blocks.
  destruct (String.eqb (report_scope c) "enterprise");
    [| destruct (String.eqb (report_scope c) "organization");
       [| destruct (String.eqb (report_scope c) "repository"); [| discriminate]]];
    intros Hbs; apply (inj Some) in Hbs; subst bs;
    repeat constructor; intros s; cbn [b_fetch];
    first [apply perform_calls_once | apply enterprise_cs_fetch_calls_once].
Qed.

(** The calls of a block are those of its fetch, or none. *)
Lemma run_block_calls c d b s :
  calls (fst (run_block c d b s)) = calls s ∨
  calls (fst (run_block c d b s)) = calls (fst (b_fetch b s)).
Proof.
  unfold run_block, when. destruct (PyStr.mem _ _); [| by left]. right. cbv zeta.
  assert (Hbody : ∃ fs out r,
    (data <- b_fetch b ;; write_csv_with_admins (scope_name c) (b_file b) data d) s =
      (State fs out (calls (fst (b_fetch b s))), r)).
  { unfold bind. destruct (b_fetch b s) as [s1 [e|data]]; cbn [fst].
    - destruct s1; cbn; eauto.
    - destruct (write_csv_effect (scope_name c) (b_file b) data d s1)
        as (rows & r & ->). eauto. }
  destruct Hbody as (fs & out & r & Hbody).
  destruct (b_except b) as [[phrases notice]|]; [| by rewrite Hbody].
  unfold try_except. rewrite Hbody. destruct r as [e|[]]; [| done].
  destruct (is_Exception e); [| done].
  by destruct (skip_if_disabled_effect phrases notice e
                 (State fs out (calls (fst (b_fetch b s))))) as (out' & r' & ->).
Qed.

Lemma run_blocks_calls_once c d bs s :
  Forall (fun b => fetch_of (b_feature b) (b_fetch b)) bs →
  Forall (fun b => ∀ s, ∃ cs,
            calls (fst (b_fetch b s)) = (calls s ++ cs)%list ∧ NoDup cs) bs →
  NoDup (map b_feature bs) →
  ∃ cs,
    calls (fst (for_each bs (run_block c d) s)) = (calls s ++ cs)%list ∧
    NoDup cs ∧
    Forall (fun k => ∃ f, feature_of_call k = Some f ∧ f ∈ map b_feature bs) cs.
Proof.
  intros Hfetch. revert s. induction Hfetch as [|b bs Hb _ IH]; intros s Honce Hnd.
  - exists []. cbn. rewrite app_nil_r. split_and!; constructor.
  - apply Forall_cons in Honce as [Hb1 Honce]. cbn [map] in Hnd.
    apply NoDup_cons in Hnd as [Hfb Hnd].
    assert (Hblock : ∃ cs, calls (fst (run_block c d b s)) = (calls s ++ cs)%list ∧
              NoDup cs ∧ Forall (fun k => feature_of_call k = Some (b_feature b)) cs).
    { destruct (run_block_calls c d b s) as [-> | ->].
      - exists []. rewrite app_nil_r. split_and!; constructor.
      - destruct (Hb1 s) as (cs & Hcs & Hnd1). exists cs. split_and!; [done | done |].
        destruct (Hb s) as (cs' & r & Hf & _ & Hall & _). rewrite Hf in Hcs.
        cbn [fst calls] in Hcs. by apply app_inv_head in Hcs as <-. }
    destruct Hblock as (cs1 & Hcs1 & Hnd1 & Hall1).
    cbn [for_each]. unfold bind.
    destruct (run_block c d b s) as [s1 [e|[]]]; cbn [fst] in *.
    + exists cs1. split_and!; [done | done |].
      eapply Forall_impl; [exact Hall1 |]. intros k Hk. exists (b_feature b).
      split; [done | left].
    + destruct (IH s1 Honce Hnd) as (cs2 & Hcs2 & Hnd2 & Hall2).
      exists (cs1 ++ cs2)%list. rewrite Hcs2, Hcs1, <- app_assoc.
      split_and!; [done | |].
      * apply NoDup_app. split_and!; [done | | done].
        intros k Hk1 Hk2. rewrite Forall_forall in Hall1, Hall2.
        destruct (Hall2 k Hk2) as (f & Hf & Hin). rewrite (Hall1 k Hk1) in Hf.
        injection Hf as <-. by apply Hfb.
      * apply Forall_app. split.
        -- eapply Forall_impl; [exact Hall1 |]. intros k Hk. exists (b_feature b).
           split; [done | left].
        -- eapply Forall_impl; [exact Hall2 |]. intros k (f & Hf & Hin). exists f.
           split; [done | by right].
Qed.

Lemma fetch_admin_details_calls A c s :
  calls (fst (fetch_admin_details A c s)) = calls s ∨
  calls (fst (fetch_admin_details A c s)) = (calls s ++ [requests_get_call])%list.
Proof.
  assert (Hadm : ∀ repo,
    calls (fst ((admins <- get_repo_admins A repo (api_endpoint c) (github_pat c) ;;
                 ret (<[repo := admins]> (∅ : gmap name (list string)))) s))
    = (calls s ++ [requests_get_call])%list).
  { intros repo. unfold bind.
    destruct (get_repo_admins A repo (api_endpoint c) (github_pat c) s)
      as [t [e|admins]] eqn:Hg; apply get_repo_admins_files in Hg; by subst t. }
  unfold fetch_admin_details.
  destruct (String.eqb (report_scope c) "repository"); [right; apply Hadm |].
  destruct (PyStr.mem (report_scope c) ["organization"; "enterprise"]); [| by left].
  right. cbn [for_fold]. rewrite <- (Hadm (scope_name c)). unfold bind.
  destruct (get_repo_admins _ _ _ _ _) as [t [e|admins]]; reflexivity.
Qed.

(** X15. In a run none of the imported functions is called twice: there is
    no retry and no second fetch. *)
Theorem no_call_is_repeated A c st0 :
  calls st0 = [] →
  NoDup (calls (fst (main A c st0))).
Proof.
  intros Hcalls.
  destruct (valid_scope (report_scope c)) eqn:Hvalid.
  2:{ rewrite main_invalid_scope by exact Hvalid. cbn. rewrite Hcalls. constructor. }
  destruct (valid_scope_blocks A c Hvalid) as (bs & Hbs & Hnd).
  destruct (scope_blocks_table A c bs Hbs) as (_ & _ & Hfetch & _).
  pose proof (scope_blocks_calls_once A c bs Hbs) as Honce.
  unfold main, bind at 1, print, bind.
  pose proof (fetch_admin_details_calls A c
                (add_stdout "Starting GitHub security report..." st0)) as Hadm.
  destruct (fetch_admin_details A c _) as [s0 [e|d]]; cbn [fst calls add_stdout] in *;
    rewrite Hcalls in Hadm; cbn [app] in Hadm.
  - destruct Hadm as [-> | ->]; [constructor | nodup_calls].
  - rewrite run_scope_blocks, Hbs.
    destruct (run_blocks_calls_once c d bs s0 Hfetch Honce Hnd)
      as (cs & -> & Hcs & Hall).
    destruct Hadm as [-> | ->]; [done |].
    apply NoDup_app. split_and!; [nodup_calls | | done].
    intros k Hk Hin. apply list_elem_of_singleton in Hk as ->.
    rewrite Forall_forall in Hall. destruct (Hall _ Hin) as (f & Hf & _). discriminate.
Qed.

(** ** A run in which nothing fails *)

Lemma run_blocks_all_written c d bs (data_of : block → list record) s :
  Forall (fun b => fetch_of (b_feature b) (b_fetch b)) bs →
  NoDup (map b_file bs) →
  (∀ b t, b ∈ bs → requested c (b_feature b) = true →
          snd (b_fetch b t) = inr (data_of b) ∧ data_of b ≠ []) →
  snd (for_each bs (run_block c d) s) = inr tt ∧
  ∀ b, b ∈ bs → requested c (b_feature b) = true →
    ∃ first rest,
      data_of b = first :: rest ∧
      files (fst (for_each bs (run_block c d) s)) !! b_file b =
        Some ((map VStr (keys first) ++ [VStr "Admins"])%list
                :: map (data_row (scope_name c) d) (first :: rest)).
Proof.
  intros Hfetch. revert s. induction Hfetch as [|b bs Hb Hbs IH]; intros s Hnd Hok.
  - split; [reflexivity |]. intros b Hb. by apply elem_of_nil in Hb.
  - cbn [map] in Hnd. apply NoDup_cons in Hnd as [Hfb Hnd].
    assert (Hok' : ∀ b' t, b' ∈ bs → requested c (b_feature b') = true →
              snd (b_fetch b' t) = inr (data_of b') ∧ data_of b' ≠ []).
    { intros b' t Hb'. apply Hok. by right. }
    cbn [for_each]. unfold bind.
    destruct (requested c (b_feature b)) eqn:Hreq.
    + destruct (Hok b s (list_elem_of_here _ _) Hreq) as [Hdata Hne].
      destruct (data_of b) as [|first rest] eqn:Hd; [done |].
      assert (Hblock : ∃ s1, run_block c d b s = (s1, inr tt) ∧
                files s1 !! b_file b =
                  Some ((map VStr (keys first) ++ [VStr "Admins"])%list
                          :: map (data_row (scope_name c) d) (first :: rest))).
      { unfold run_block, when. unfold requested in Hreq. rewrite Hreq. cbv zeta.
        assert (Hbody : ∃ s1,
          (data <- b_fetch b ;; write_csv_with_admins (scope_name c) (b_file b) data d) s
            = (s1, inr tt) ∧
          files s1 !! b_file b =
            Some ((map VStr (keys first) ++ [VStr "Admins"])%list
                    :: map (data_row (scope_name c) d) (first :: rest))).
        { unfold bind. destruct (b_fetch b s) as [t r]. cbn [snd] in Hdata. subst r.
          rewrite write_csv_rows. eexists. split; [reflexivity |].
          cbn [files set_files]. apply lookup_insert_eq. }
        destruct Hbody as (s1 & Hbody & Hfile). exists s1. split; [| exact Hfile].
        destruct (b_except b) as [[phrases notice]|]; [| exact Hbody].
        unfold try_except. by rewrite Hbody. }
      destruct Hblock as (s1 & -> & Hfile).
      destruct (IH s1 Hnd Hok') as [Hdone Hfiles]. split; [exact Hdone |].
      intros b' Hb' Hreq'. apply elem_of_cons in Hb' as [-> | Hb'].
      * exists first, rest. split; [exact Hd |].
        destruct (for_each bs (run_block c d) s1) as [s' r] eqn:Hrun. cbn [fst].
        etransitivity; [| exact Hfile].
        exact (run_blocks_effect _ _ _ _ _ _ Hbs Hrun (b_file b) Hfb).
      * by apply Hfiles.
    + assert (Hskip : run_block c d b s = (s, inr tt)).
      { unfold run_block, when. unfold requested in Hreq. by rewrite Hreq. }
      rewrite Hskip. destruct (IH s Hnd Hok') as [Hdone Hfiles]. split; [exact Hdone |].
      intros b' Hb' Hreq'. apply elem_of_cons in Hb' as [-> | Hb']; [congruence |].
      by apply Hfiles.
Qed.

(** X17. When the admin lookup succeeds and the fetch of every requested
    feature returns at least one alert, the run ends normally with exit
    status 0, and the file of every requested feature holds the header and
    one row per alert. *)
Theorem run_without_failure_writes_every_csv A c st0 s0 d bs
    (data_of : block → list record) :
  scope_blocks A c = Some bs →
  fetch_admin_details A c (add_stdout "Starting GitHub security report..." st0)
    = (s0, inr d) →
  (∀ b t, b ∈ bs → requested c (b_feature b) = true →
          snd (b_fetch b t) = inr (data_of b) ∧ data_of b ≠ []) →
  snd (main A c st0) = inr tt ∧
  exit_status (snd (main A c st0)) = 0%Z ∧
  ∀ b, b ∈ bs → requested c (b_feature b) = true →
    ∃ first rest,
      data_of b = first :: rest ∧
      files (fst (main A c st0)) !! b_file b =
        Some ((map VStr (keys first) ++ [VStr "Admins"])%list
                :: map (data_row (scope_name c) d) (first :: rest)).
Proof.
  intros Hbs Hadm Hok.
  destruct (scope_blocks_table A c bs Hbs) as (_ & Hnd & Hfetch & _).
  assert (Hmain : main A c st0 = for_each bs (run_block c d) s0).
  { unfold main, bind at 1, print, bind. by rewrite Hadm, run_scope_blocks, Hbs. }
  rewrite Hmain.
  destruct (run_blocks_all_written c d bs data_of s0 Hfetch Hnd Hok) as [Hdone Hfiles].
  split_and!; [exact Hdone | by rewrite Hdone | exact Hfiles].
Qed.

(** ** The further properties at sample inputs *)

Lemma resolved_features_keep_valid_names_witness :
  ∃ features out,
    resolve_features (Some SampleExtra.two_bogus) initial =
      (State (files initial) (stdout initial ++ out) (calls initial), inr features) ∧
    List.filter valid_feature features =
      List.filter valid_feature (PyStr.split_comma SampleExtra.two_bogus) ∧
    sublist features (PyStr.split_comma SampleExtra.two_bogus) ∧
    length (PyStr.split_comma SampleExtra.two_bogus) = (length features + length out)%nat.
Proof.
  exact (resolved_features_keep_valid_names SampleExtra.two_bogus initial eq_refl).
Defined.

Lemma resolved_features_without_adjacent_invalid_witness :
  ∃ out,
    resolve_features (Some SampleExtra.apart_bogus) initial =
      (State (files initial) (stdout initial ++ out) (calls initial),
       inr ["secretscanning"; "dependabot"]).
Proof.
  exact (resolved_features_without_adjacent_invalid SampleExtra.apart_bogus initial
           eq_refl eq_refl).
Defined.

Lemma leftover_invalid_names_are_inert_witness :
  ∃ c out,
    read_config SampleExtra.env_two_bogus initial =
      (State (files initial) (stdout initial ++ out) (calls initial), inr c) ∧
    script Sample.api_ok SampleExtra.env_two_bogus initial =
      main Sample.api_ok (with_features c ["dependabot"])
        (State (files initial) (stdout initial ++ out) (calls initial)).
Proof.
  assert (Henv : SampleExtra.env_two_bogus !! "FEATURES" = Some SampleExtra.two_bogus)
    by (vm_compute; reflexivity).
  exact (leftover_invalid_names_are_inert Sample.api_ok SampleExtra.env_two_bogus
           SampleExtra.two_bogus initial Henv eq_refl).
Defined.

Lemma disabled_phrase_in_any_case_witness :
  PyStr.any_in secret_scanning_disabled_strings
    (PyStr.lower ("403 " ++ "Secret Scanning IS Disabled" ++ " for this repository"))
    = true.
Proof.
  apply (disabled_phrase_in_any_case secret_scanning_disabled_strings
           "secret scanning is disabled").
  - right. left. reflexivity.
  - reflexivity.
Defined.

Lemma admin_logins_fill_the_admins_cell_witness :
  last (data_row (Some "octo/repo") {[(Some "octo/repo" : name) := ["alice"; "alice"]]}
          Sample.alert1) = Some (VStr "alice, alice").
Proof.
  destruct (admin_logins_fill_the_admins_cell SampleExtra.api_alice_twice
              SampleRuns.repo_all initial
              (add_call requests_get_call
                 (add_stdout "Starting GitHub security report..." initial))
              ["alice"; "alice"] eq_refl eq_refl)
    as (resp & Hreq & _ & _ & _ & Hcell).
  injection Hreq as <-. exact (Hcell Sample.alert1 eq_refl).
Defined.

Lemma admin_lookup_failure_ends_run_witness :
  main SampleExtra.api_admin_forbidden SampleRuns.org_all initial =
    (add_call requests_get_call (add_stdout "Starting GitHub security report..." initial),
     inl (Error SampleExtra.forbidden)) ∧
  files (add_call requests_get_call
           (add_stdout "Starting GitHub security report..." initial)) = ∅.
Proof.
  destruct (admin_lookup_failure_ends_run SampleExtra.api_admin_forbidden
              SampleRuns.org_all initial
              (add_call requests_get_call
                 (add_stdout "Starting GitHub security report..." initial))
              (Error SampleExtra.forbidden) eq_refl eq_refl) as (Hmain & Hfiles & _).
  split; [exact Hmain | exact Hfiles].
Defined.

Lemma admin_map_has_no_other_key_witness :
  Sample.admins !! (Some "octo/other" : name) = None ∧
  last (data_row (Some "octo/repo") Sample.admins Sample.alert2) = Some (VStr "").
Proof.
  destruct (admin_map_has_no_other_key Sample.api_ok SampleRuns.repo_all initial
              (add_call requests_get_call initial) Sample.admins eq_refl)
    as (Hkey & _ & Hrow).
  split; [apply Hkey | apply Hrow]; discriminate.
Defined.

Lemma admins_of_repository_value_witness :
  ∃ rows cells,
    files (fst (write_csv_with_admins (Some "octo/org") "organization_code_scanning.csv"
                  [Sample.alert1; SampleExtra.alert3] Sample.admins initial))
      !! "organization_code_scanning.csv" = Some rows ∧
    rows !! 2%nat = Some cells ∧
    last cells = Some (VStr "alice, carol").
Proof.
  destruct (admins_of_repository_value (Some "octo/org") Sample.admins
              "organization_code_scanning.csv" [Sample.alert1; SampleExtra.alert3]
              1 SampleExtra.alert3 (VStr "octo/repo") initial eq_refl eq_refl)
    as (rows & cells & Hfile & Hrow & Hfound & _).
  exists rows, cells. split_and!; [exact Hfile | exact Hrow |].
  apply (Hfound "octo/repo" ["alice"; "carol"]); [reflexivity |].
  vm_compute. reflexivity.
Defined.

Lemma row_width_follows_record_witness :
  ∃ header cells,
    files (fst (write_csv_with_admins (Some "octo/repo") "organization_code_scanning.csv"
                  [Sample.alert1; Sample.alert2] Sample.admins initial))
      !! "organization_code_scanning.csv"
      = Some (header :: map (data_row (Some "octo/repo") Sample.admins)
                          [Sample.alert1; Sample.alert2]) ∧
    map (data_row (Some "octo/repo") Sample.admins) [Sample.alert1; Sample.alert2]
      !! 1%nat = Some cells ∧
    length header = 3%nat ∧
    length cells = 4%nat ∧
    take 3 cells = values Sample.alert2 ∧
    (length cells = length header ↔ 3%nat = 2%nat).
Proof.
  exact (row_width_follows_record (Some "octo/repo") Sample.admins
           "organization_code_scanning.csv" Sample.alert1 [Sample.alert2] 1
           Sample.alert2 initial eq_refl).
Defined.

Lemma fetched_alerts_are_written_witness :
  main Sample.api_ok SampleRuns.org_all initial =
    for_each [org_dependabot Sample.api_ok SampleRuns.org_all;
              org_ss Sample.api_ok SampleRuns.org_all]
      (run_block SampleRuns.org_all Sample.admins)
      (set_files
         (fun fs => <["organization_code_scanning.csv" :=
            [VStr "number"; VStr "state"; VStr "Admins"]
              :: map (data_row (Some "octo/repo") Sample.admins)
                   [Sample.alert1; Sample.alert2]]> fs)
         (add_call list_org_cs_alerts_call Sample.started)).
Proof.
  assert (Hreach : reaches Sample.api_ok SampleRuns.org_all initial Sample.admins []
            Sample.started).
  { exists Sample.started. split; vm_compute; reflexivity. }
  destruct (fetched_alerts_are_written Sample.api_ok SampleRuns.org_all initial
              Sample.admins [] (org_cs Sample.api_ok SampleRuns.org_all)
              [org_dependabot Sample.api_ok SampleRuns.org_all;
               org_ss Sample.api_ok SampleRuns.org_all]
              Sample.started (add_call list_org_cs_alerts_call Sample.started)
              Sample.alert1 [Sample.alert2] eq_refl Hreach eq_refl eq_refl)
    as (_ & Hmain & _).
  exact Hmain.
Defined.

Lemma run_changes_requested_csv_only_witness :
  files (fst (main Sample.api_ok SampleRuns.repo_dependabot_only initial))
    !! "repository_code_scanning.csv" = None.
Proof.
  rewrite (run_changes_requested_csv_only Sample.api_ok SampleRuns.repo_dependabot_only
             initial "repository_code_scanning.csv" eq_refl).
  - apply lookup_empty.
  - intros feature stem Hin Hreq.
    destruct Hin as [[= <- <-] | [[= <- <-] | [[= <- <-] | []]]];
      first [discriminate Hreq | discriminate].
Defined.

Lemma enterprise_code_scanning_dispatch_witness :
  (∃ cs,
     calls (fst (main SampleExtra.api_350 SampleRuns.enterprise_all initial)) =
       ([requests_get_call; get_enterprise_ss_alerts_call;
         get_enterprise_version_call; get_repo_report_call] ++ cs)%list ∧
     list_enterprise_cloud_cs_alerts_call ∉ cs) ∧
  files (fst (main SampleExtra.api_350 SampleRuns.enterprise_all initial))
    !! "enterprise_code_scanning.csv" = Some SampleRuns.one_alert_csv.
Proof.
  assert (Hreach : reaches SampleExtra.api_350 SampleRuns.enterprise_all initial
            Sample.admins [enterprise_ss SampleExtra.api_350 SampleRuns.enterprise_all]
            SampleRuns.after_enterprise_ss).
  { exists Sample.started. split; vm_compute; reflexivity. }
  destruct (enterprise_code_scanning_dispatch SampleExtra.api_350
              SampleRuns.enterprise_all initial Sample.admins
              SampleRuns.after_enterprise_ss "3.50.2" eq_refl eq_refl Hreach eq_refl)
    as (_ & Hserver & _).
  destruct (Hserver eq_refl) as ((cs & Hcalls & Hcs) & Hfile).
  split; [exists cs; split; [exact Hcalls | exact Hcs] |].
  exact (Hfile ["octo/repo"] Sample.alert1 [] eq_refl eq_refl).
Defined.

Lemma no_call_is_repeated_witness :
  NoDup (calls (fst (main Sample.api_ok SampleRuns.enterprise_all initial))).
Proof.
  exact (no_call_is_repeated Sample.api_ok SampleRuns.enterprise_all initial eq_refl).
Defined.

Lemma run_without_failure_writes_every_csv_witness :
  snd (main Sample.api_ok SampleRuns.org_two initial) = inr tt ∧
  files (fst (main Sample.api_ok SampleRuns.org_two initial))
    !! "organization_secret_scanning.csv" = Some SampleRuns.one_alert_csv.
Proof.
  destruct (run_without_failure_writes_every_csv Sample.api_ok SampleRuns.org_two
              initial Sample.started Sample.admins
              [org_cs Sample.api_ok SampleRuns.org_two;
               org_dependabot Sample.api_ok SampleRuns.org_two;
               org_ss Sample.api_ok SampleRuns.org_two]
              (fun b => if String.eqb (b_feature b) "codescanning"
                        then [Sample.alert1; Sample.alert2] else [Sample.alert1])
              eq_refl eq_refl) as (Hdone & _ & Hfiles).
  - intros b t Hb Hreq.
    apply elem_of_cons in Hb as [-> | Hb]; [split; [reflexivity | discriminate] |].
    apply elem_of_cons in Hb as [-> | Hb]; [discriminate Hreq |].
    apply elem_of_cons in Hb as [-> | Hb]; [split; [reflexivity | discriminate] |].
    by apply elem_of_nil in Hb.
  - split; [exact Hdone |].
    destruct (Hfiles (org_ss Sample.api_ok SampleRuns.org_two)) as (first & rest & Hd & Hf).
    + right. right. left.
    + reflexivity.
    + cbn in Hd. injection Hd as <- <-. exact Hf.
Defined.
